(** * FiveMDevKit: the native catalog pipeline of [src/extension.ts]

    A shallow embedding of the TypeScript sources of the extension and the
    properties of its catalog normalizer, casing transform, type mapper,
    suggestion formatter and exact-name lookup.

    The repository holds two revisions of the extension module.  The one
    stored as [src/extension.ts] (with [toPascalCase], [mapType], the event
    completions and a guarded catalog load) is embedded in [Module Extension];
    the other revision (with the definition provider and an unguarded load) is
    embedded in [Module Revision].  [parseNatives] and the record types are
    textually the same in both and are shared.

    Conventions of the embedding:
    - a JavaScript string is a [string]; the identifiers and type names of the
      catalog are ASCII text, and [toUpperCase]/[toLowerCase] are the case
      mappings of the runtime on ASCII text (code units below 128), where they
      act on the letters [a-z] and [A-Z] alone.  On text with other code units
      the runtime may map further letters and change the length, which the
      embedding does not follow: a property that depends on the value of a case
      mapping is stated for ASCII text, or for the class [[A-Z0-9_]];
    - an optional property ([hash?: string]) is an [option]; [undefined]
      interpolated in a template literal prints as the text [undefined];
    - a JavaScript object used as a dictionary is the list of its properties in
      creation order, and [Object_keys] enumerates it the way ECMAScript does;
    - host calls (messages, registrations, opened links) are recorded in a log,
      a thrown exception is the [Thrown] outcome. *)

From Stdlib Require Import List String Ascii Bool Arith NArith Lia.
From Stdlib Require Import Permutation Sorted.
From Stdlib Require DecimalString.
Import ListNotations.

Local Open Scope list_scope.
Local Open Scope string_scope.

(** ** JavaScript strings *)

Module JsString.

Definition nl : string := String (ascii_of_nat 10) "".
Definition tab : string := String (ascii_of_nat 9) "".
Definition dquote : string := String (ascii_of_nat 34) "".

Definition is_upper (c : ascii) : bool :=
  (65 <=? nat_of_ascii c)%nat && (nat_of_ascii c <=? 90)%nat.

Definition is_lower (c : ascii) : bool :=
  (97 <=? nat_of_ascii c)%nat && (nat_of_ascii c <=? 122)%nat.

Definition is_digit (c : ascii) : bool :=
  (48 <=? nat_of_ascii c)%nat && (nat_of_ascii c <=? 57)%nat.

Definition upper_char (c : ascii) : ascii :=
  if is_lower c then ascii_of_nat (nat_of_ascii c - 32) else c.

Definition lower_char (c : ascii) : ascii :=
  if is_upper c then ascii_of_nat (nat_of_ascii c + 32) else c.

(** [s.toUpperCase()] and [s.toLowerCase()] on ASCII text: the letters are
    mapped, every other character is kept.  These are the values of the
    runtime for a string of code units below 128; for other strings they are
    not (there [toUpperCase] can map further letters and lengthen the text). *)
Fixpoint toUpperCase (s : string) : string :=
  match s with
  | EmptyString => EmptyString
  | String c r => String (upper_char c) (toUpperCase r)
  end.

Fixpoint toLowerCase (s : string) : string :=
  match s with
  | EmptyString => EmptyString
  | String c r => String (lower_char c) (toLowerCase r)
  end.

(** [s.charAt(0)]: the first code unit as a string, empty on the empty string. *)
Definition charAt0 (s : string) : string :=
  match s with
  | EmptyString => EmptyString
  | String c _ => String c EmptyString
  end.

(** [s.slice(n)] for a start index [n >= 0]. *)
Fixpoint slice (n : nat) (s : string) : string :=
  match n, s with
  | O, _ => s
  | S _, EmptyString => EmptyString
  | S m, String _ r => slice m r
  end.

(** [s.split(sep)] for a separator of one code unit: never the empty list. *)
Fixpoint split (sep : ascii) (s : string) : list string :=
  match s with
  | EmptyString => [EmptyString]
  | String c r =>
      if Ascii.eqb c sep then EmptyString :: split sep r
      else match split sep r with
           | [] => [String c EmptyString]
           | chunk :: chunks => String c chunk :: chunks
           end
  end.

(** [parts.join(sep)]. *)
Definition join (sep : string) (parts : list string) : string :=
  String.concat sep parts.

(** [a || b] on an optional string: [undefined] and the empty string are falsy. *)
Definition or_string (a : option string) (b : string) : string :=
  match a with
  | Some EmptyString | None => b
  | Some s => s
  end.

(** [`${x}`] for an optional string. *)
Definition interpolate (x : option string) : string :=
  match x with
  | Some s => s
  | None => "undefined"
  end.

Fixpoint chars (s : string) : list ascii :=
  match s with
  | EmptyString => []
  | String c r => c :: chars r
  end.

End JsString.
Import JsString.

(** ** JavaScript objects used as dictionaries *)

Module JsObject.

(** The properties of an object, in the order they were created: for an object
    built by [JSON.parse], the order in which the document lists its members. *)
Definition t (V : Type) : Type := list (string * V).

Fixpoint digits_value (acc : N) (s : string) : option N :=
  match s with
  | EmptyString => Some acc
  | String c r =>
      if is_digit c
      then digits_value (acc * 10 + N.of_nat (nat_of_ascii c - 48)) r
      else None
  end.

(** An array index is a canonical numeric string (no sign, no leading zero)
    whose value is below [2^32 - 1]. *)
Definition array_index (k : string) : option N :=
  match k with
  | EmptyString => None
  | String c r =>
      if is_digit c && (negb (Ascii.eqb c "0") || (r =? ""))
      then match digits_value 0 k with
           | Some n => if (n <? 4294967295)%N then Some n else None
           | None => None
           end
      else None
  end.

Definition is_index (k : string) : bool :=
  match array_index k with Some _ => true | None => false end.

Section Enumerate.
Context {V : Type}.

Fixpoint insert_index (n : N) (e : string * V) (l : list (N * (string * V)))
  : list (N * (string * V)) :=
  match l with
  | [] => [(n, e)]
  | (m, e') :: r =>
      if (n <? m)%N then (n, e) :: l else (m, e') :: insert_index n e r
  end.

(** The properties whose key is an array index, by ascending index. *)
Fixpoint index_entries (o : t V) : list (N * (string * V)) :=
  match o with
  | [] => []
  | e :: r =>
      match array_index (fst e) with
      | Some n => insert_index n e (index_entries r)
      | None => index_entries r
      end
  end.

Definition string_entries (o : t V) : list (string * V) :=
  filter (fun e => negb (is_index (fst e))) o.

(** The own properties in the order ECMAScript prescribes for
    [OrdinaryOwnPropertyKeys], which [Object.keys] and [for-in] follow: the
    keys that are array indices in ascending numeric order, then the other
    string keys in the order of their creation. *)
Definition enumerate (o : t V) : list (string * V) :=
  (map snd (index_entries o) ++ string_entries o)%list.

(** [Object.keys(o)]. *)
Definition keys (o : t V) : list string := map fst (enumerate o).

(** [o[k]]; [None] is [undefined]. *)
Fixpoint get (o : t V) (k : string) : option V :=
  match o with
  | [] => None
  | (k', v) :: r => if k' =? k then Some v else get r k
  end.

(** An object has one property per key. *)
Definition wf (o : t V) : Prop := NoDup (map fst o).

End Enumerate.

End JsObject.

(** ** Record types of the extension *)

Record FiveMNativeParam : Type := mkParam {
  p_name : string;
  p_type : string
}.

(** [string | string[]]; [undefined] is the [None] of [FiveMNativeResults]. *)
Inductive ResultsValue : Type :=
| ResultsString (s : string)
| ResultsArray (l : list string).

Definition FiveMNativeResults : Type := option ResultsValue.

Record FiveMNative : Type := mkNative {
  name : string;
  hash : option string;
  params : option (list FiveMNativeParam);
  results : FiveMNativeResults;
  description : option string;
  module : option string
}.

(** ** The raw catalog and its normalization *)

(** A native definition of the raw document: [{name, params?, results?, description?}]. *)
Record NativeDef : Type := mkDef {
  def_name : option string;
  def_params : option (list FiveMNativeParam);
  def_results : FiveMNativeResults;
  def_description : option string
}.

(** A module maps a hash to a definition; a [null] member is [None]. *)
Definition RawModule : Type := JsObject.t (option NativeDef).
Definition RawCatalog : Type := JsObject.t RawModule.

(** [result.push(x)]. *)
Definition push {A : Type} (result : list A) (x : A) : list A := (result ++ [x])%list.

(** [nativeDef.params || []]: an array is always truthy. *)
Definition or_params (a : option (list FiveMNativeParam)) : list FiveMNativeParam :=
  match a with
  | Some ps => ps
  | None => []
  end.

(** The body of the inner loop of [parseNatives] for one key of a module. *)
Definition parseNatives_entry (moduleName : string) (moduleObj : RawModule)
    (result : list FiveMNative) (nativeHash : string) : list FiveMNative :=
  match JsObject.get moduleObj nativeHash with
  | Some (Some nativeDef) =>
      match def_name nativeDef with
      | Some (String _ _ as nativeDef_name) =>
          push result
            {| name := nativeDef_name;
               hash := Some nativeHash;
               params := Some (or_params (def_params nativeDef));
               results := def_results nativeDef;
               description := Some (or_string (def_description nativeDef) "");
               module := Some moduleName |}
      | _ => result
      end
  | _ => result
  end.

(** The body of the outer loop for one key of the catalog.  A key that
    [Object.keys] returned always has a value, so the [None] branch is never taken. *)
Definition parseNatives_module (nativesData : RawCatalog)
    (result : list FiveMNative) (moduleName : string) : list FiveMNative :=
  match JsObject.get nativesData moduleName with
  | Some moduleObj =>
      fold_left (parseNatives_entry moduleName moduleObj) (JsObject.keys moduleObj) result
  | None => result
  end.

(** [parseNatives], the same text in both revisions. *)
Definition parseNatives (nativesData : RawCatalog) : list FiveMNative :=
  fold_left (parseNatives_module nativesData) (JsObject.keys nativesData) [].


(** ** The host editor and the runtime *)

Inductive outcome (A : Type) : Type :=
| Returned (a : A)
| Thrown (e : string).
Arguments Returned {A} a.
Arguments Thrown {A} e.

Module Host.

(** A snippet is the sequence of calls that built it: the constructor's
    value, then the appended literal texts and placeholders in order. *)
Inductive SnippetPart : Type :=
| SnippetValue (value : string)
| Text (text : string)
| Placeholder (text : string).

Definition SnippetString : Type := list SnippetPart.

Definition new_SnippetString (value : string) : SnippetString := [SnippetValue value].
Definition appendText (snippet : SnippetString) (text : string) : SnippetString :=
  (snippet ++ [Text text])%list.
Definition appendPlaceholder (snippet : SnippetString) (text : string) : SnippetString :=
  (snippet ++ [Placeholder text])%list.

Inductive CompletionItemKind : Type := Function.

Record CompletionItem : Type := mkItem {
  label : string;
  kind : CompletionItemKind;
  detail : string;
  documentation : string;
  insertText : option SnippetString
}.

Inductive Provider : Type :=
| FiveMCompletionProvider (natives : list FiveMNative)
| FiveMEventsCompletionProvider
| FiveMDefinitionProvider (natives : list FiveMNative).

Inductive Call : Type :=
| showErrorMessage (message : string)
| showWarningMessage (message : string)
| showInformationMessage (message : string)
| registerCompletionItemProvider (languages : list string) (provider : Provider)
| registerDefinitionProvider (languages : list string) (provider : Provider)
| registerCommand (command : string) (message : string)
| subscriptions_push (count : nat)
| openExternal (uri : string).

(** A computation that calls the host: the calls made so far are threaded
    through, and survive a thrown exception. *)
Definition M (A : Type) : Type := list Call -> outcome A * list Call.

Definition ret {A : Type} (a : A) : M A := fun log => (Returned a, log).

Definition bind {A B : Type} (m : M A) (k : A -> M B) : M B :=
  fun log =>
    match m log with
    | (Returned a, log') => k a log'
    | (Thrown e, log') => (Thrown e, log')
    end.

Definition call (c : Call) : M unit := fun log => (Returned tt, (log ++ [c])%list).

(** A runtime function that returns or throws. *)
Definition lift {A : Type} (r : outcome A) : M A := fun log => (r, log).

(** [try { body } catch (e) { handler }]. *)
Definition try_catch {A : Type} (body : M A) (handler : string -> M A) : M A :=
  fun log =>
    match body log with
    | (Returned a, log') => (Returned a, log')
    | (Thrown e, log') => handler e log'
    end.

Definition run {A : Type} (m : M A) : outcome A * list Call := m [].

End Host.
Import Host.

Notation "x <- m ;; k" := (Host.bind m (fun x => k))
  (at level 61, m at next level, right associativity).
Notation "m ;;; k" := (Host.bind m (fun _ => k))
  (at level 61, right associativity).

(** What the runtime supplies to [activate]: the file system and [JSON.parse]. *)
Record Runtime : Type := mkRuntime {
  path_join : list string -> string;
  existsSync : string -> bool;
  readFileSync : string -> outcome string;
  JSON_parse : string -> outcome RawCatalog
}.

Definition languages : list string := ["javascript"; "typescript"].

(** ** The revision stored as [src/extension.ts] *)

Module Extension.

(** The class [[A-Z0-9_]]. *)
Definition in_class (c : ascii) : bool :=
  is_upper c || is_digit c || Ascii.eqb c "_".

Fixpoint all_in_class (s : string) : bool :=
  match s with
  | EmptyString => true
  | String c r => in_class c && all_in_class r
  end.

(** [/^[A-Z0-9_]+$/.test(s)]: one or more class characters, anchored at both ends. *)
Definition test_upper_snake (s : string) : bool :=
  match s with
  | EmptyString => false
  | String c r => in_class c && all_in_class r
  end.

Definition toPascalCase (s : string) : string :=
  if test_upper_snake s then
    join "" (map (fun chunk => toUpperCase (charAt0 chunk) ++ toLowerCase (slice 1 chunk))
                 (split "_" s))
  else
    toUpperCase (charAt0 s) ++ slice 1 s.

Definition mapType (type : string) : string :=
  let t := toLowerCase type in
  if t =? "char*" then "string"
  else if (t =? "float") || (t =? "int") then "number"
  else if t =? "bool" then "boolean"
  else toLowerCase type.

(** The return-type text of the documentation. *)
Definition returns_text (native_results : FiveMNativeResults) : string :=
  match native_results with
  | Some (ResultsArray l) => join " | " l
  | Some (ResultsString s) => or_string (Some s) "void"
  | None => or_string None "void"
  end.

Definition paramList (native_params : option (list FiveMNativeParam)) : string :=
  match native_params with
  | Some ps => join ", " (map (fun p => mapType (p_type p) ++ " " ++ p_name p) ps)
  | None => ""
  end.

Definition docString (native : FiveMNative) : string :=
  nl ++ "**Description:** " ++ or_string (description native) "No description" ++
  nl ++ "**Parameters:** `" ++ paramList (params native) ++ "`" ++
  nl ++ "**Returns:** `" ++ returns_text (results native) ++ "`" ++
  nl ++ "**Module:** `" ++ interpolate (module native) ++ "`" ++
  nl ++ "**Hash:** `" ++ interpolate (hash native) ++ "`" ++
  nl ++ tab ++ tab ++ tab.

(** One turn of the loop [for (let i = 0; i < native.params.length; i++)]. *)
Definition snippet_step (native_params : list FiveMNativeParam)
    (snippet : SnippetString) (i : nat) : SnippetString :=
  match nth_error native_params i with
  | Some param =>
      let snippet := appendText snippet (nl ++ tab) in
      let snippet := appendPlaceholder snippet (p_name param ++ ": " ++ mapType (p_type param)) in
      if (i <? List.length native_params - 1)%nat then appendText snippet "," else snippet
  | None => snippet
  end.

Definition snippet_of (funcName : string) (native_params : option (list FiveMNativeParam))
  : SnippetString :=
  let snippet := new_SnippetString (funcName ++ "(") in
  let snippet :=
    match native_params with
    | Some ((_ :: _) as ps) =>
        let snippet := fold_left (snippet_step ps) (seq 0 (List.length ps)) snippet in
        appendText snippet (nl ++ ")")
    | _ => appendText snippet ")"
    end in
  appendText snippet ";".

Definition completionItem (native : FiveMNative) : CompletionItem :=
  let funcName := toPascalCase (name native) in
  {| label := funcName;
     kind := Function;
     detail := interpolate (module native) ++ " - Hash: " ++ interpolate (hash native);
     documentation := docString native;
     insertText := Some (snippet_of funcName (params native)) |}.

(** [FiveMCompletionProvider.provideCompletionItems]. *)
Definition provideCompletionItems (natives : list FiveMNative) : list CompletionItem :=
  map completionItem natives.

Definition activate (rt : Runtime) (extensionPath : string) : Host.M unit :=
  let nativesFile := path_join rt [extensionPath; "data"; "natives.json"] in
  let allNatives : list FiveMNative := [] in
  allNatives <-
    (if existsSync rt nativesFile then
       try_catch
         (rawData <- lift (readFileSync rt nativesFile) ;;
          parsed <- lift (JSON_parse rt rawData) ;;
          ret (parseNatives parsed))
         (fun e =>
            call (showErrorMessage "Failed to parse natives.json") ;;;
            ret allNatives)
     else
       call (showWarningMessage "natives.json not found in the data folder.") ;;;
       ret allNatives) ;;
  call (registerCompletionItemProvider languages (FiveMCompletionProvider allNatives)) ;;;
  call (registerCompletionItemProvider languages FiveMEventsCompletionProvider) ;;;
  call (registerCommand "fivemdevkit.helloWorld" "Hello from FiveMDevKit!") ;;;
  call (registerCommand "fivemdevkit.debugResource" "Debug Resource: Not implemented yet!") ;;;
  call (subscriptions_push 4) ;;;
  call (showInformationMessage "FiveMDevKit is now active!").

End Extension.

(** ** The other revision of the module *)

Module Revision.

Definition activate (rt : Runtime) (extensionPath : string) : Host.M unit :=
  let nativesFile := path_join rt [extensionPath; "data"; "natives.json"] in
  let allNatives : list FiveMNative := [] in
  allNatives <-
    (if existsSync rt nativesFile then
       rawData <- lift (readFileSync rt nativesFile) ;;
       parsed <- lift (JSON_parse rt rawData) ;;
       ret (parseNatives parsed)
     else
       call (showWarningMessage
               ("FiveM natives.json not found. Please run " ++ dquote ++ "npm run fetch-natives" ++
                dquote ++ " or place the file in the data folder.")) ;;;
       ret allNatives) ;;
  call (registerCompletionItemProvider languages (FiveMCompletionProvider allNatives)) ;;;
  call (registerDefinitionProvider languages (FiveMDefinitionProvider allNatives)) ;;;
  call (registerCommand "fivemdevkit.helloWorld" "Hello from FiveMDevKit!") ;;;
  call (registerCommand "fivemdevkit.debugResource" "Debug Resource: Not implemented yet!") ;;;
  call (subscriptions_push 4) ;;;
  call (showInformationMessage "FiveMDevKit is now active!").

Definition resultsArray (native_results : FiveMNativeResults) : list string :=
  match native_results with
  | Some (ResultsString s) => [s]
  | Some (ResultsArray l) => l
  | None => []
  end.

Definition returns_text (native_results : FiveMNativeResults) : string :=
  let resultsArray := resultsArray native_results in
  if (0 <? List.length resultsArray)%nat then join " | " resultsArray else "void".

Definition params_text (native_params : option (list FiveMNativeParam)) : string :=
  or_string
    (option_map (fun ps => join ", " (map (fun p => p_type p ++ " " ++ p_name p) ps))
                native_params)
    "".

Definition docString (native : FiveMNative) : string :=
  nl ++ "**Description**: " ++ or_string (description native) "No description" ++ "  " ++
  nl ++ "**Parameters**: `" ++ params_text (params native) ++ "`  " ++
  nl ++ "**Returns**: `" ++ returns_text (results native) ++ "`  " ++
  nl ++ "**Module**: `" ++ interpolate (module native) ++ "`" ++
  nl ++ "**Hash**: `" ++ interpolate (hash native) ++ "`" ++
  nl ++ tab ++ tab ++ tab.

Definition snippet_step (native_params : list FiveMNativeParam)
    (snippet : SnippetString) (i : nat) : SnippetString :=
  match nth_error native_params i with
  | Some param =>
      let snippet := appendPlaceholder snippet (p_name param) in
      if (i <? List.length native_params - 1)%nat then appendText snippet ", " else snippet
  | None => snippet
  end.

Definition completionItem (native : FiveMNative) : CompletionItem :=
  {| label := name native;
     kind := Function;
     detail := interpolate (module native) ++ " - Hash: " ++ interpolate (hash native);
     documentation := docString native;
     insertText :=
       match params native with
       | Some ((_ :: _) as ps) =>
           let snippet := new_SnippetString (name native ++ "(") in
           let snippet := fold_left (snippet_step ps) (seq 0 (List.length ps)) snippet in
           Some (appendText snippet ")")
       | _ => None
       end |}.

Definition provideCompletionItems (natives : list FiveMNative) : list CompletionItem :=
  map completionItem natives.

(** A definition location inside the editor; the provider never builds one. *)
Record Location : Type := mkLocation { loc_uri : string; loc_line : nat; loc_character : nat }.

(** [this.natives.find((n) => n.name.toLowerCase() === word.toLowerCase())]. *)
Definition findByName (natives : list FiveMNative) (word : string) : option FiveMNative :=
  find (fun n => toLowerCase (name n) =? toLowerCase word) natives.

Definition docUrl (match_ : FiveMNative) : string :=
  "https://docs.fivem.net/natives/?_0x" ++ or_string (option_map (slice 2) (hash match_)) "".

(** [FiveMDefinitionProvider.provideDefinition]; [wordAtPosition] is the word
    under the cursor, [None] when [getWordRangeAtPosition] finds no range. *)
Definition provideDefinition (natives : list FiveMNative) (wordAtPosition : option string)
  : Host.M (option Location) :=
  match wordAtPosition with
  | None => ret None
  | Some word =>
      match findByName natives word with
      | Some match_ => call (openExternal (docUrl match_)) ;;; ret None
      | None => ret None
      end
  end.

End Revision.


(** * Specifications in the words of the design document *)

Module Spec.

(** "One or more characters drawn only from uppercase letters, digits, and
    underscore", the whole input. *)
Definition UpperSnake (s : string) : Prop :=
  s <> "" /\
  Forall (fun c => is_upper c = true \/ is_digit c = true \/ c = "_"%char) (chars s).

(** [chunks] is the input split on [sep]: joining the chunks with [sep] gives
    the input back and no chunk contains [sep]. *)
Definition SplitOn (sep : ascii) (s : string) (chunks : list string) : Prop :=
  chunks <> [] /\
  join (String sep "") chunks = s /\
  Forall (fun chunk => ~ In sep (chars chunk)) chunks.

(** First character uppercased, remainder lowercased. *)
Definition capitalize_chunk (chunk : string) : string :=
  match chunk with
  | EmptyString => EmptyString
  | String c r => String (upper_char c) (toLowerCase r)
  end.

(** First character uppercased, remainder untouched. *)
Definition capitalize_first (s : string) : string :=
  match s with
  | EmptyString => EmptyString
  | String c r => String (upper_char c) r
  end.

(** Text of ASCII characters only: every code unit is below 128.  On such
    text the case mappings of the embedding are those of the runtime. *)
Definition AsciiText (s : string) : Prop :=
  Forall (fun c => (nat_of_ascii c < 128)%nat) (chars s).

(** The source type names that the fixed table of the type mapper lists. *)
Definition mapped_names : list string := ["char*"; "float"; "int"; "bool"].

(** The usable name of a raw entry: present and non-empty. *)
Definition named (e : option NativeDef) : option (NativeDef * string) :=
  match e with
  | Some d =>
      match def_name d with
      | Some (String c r) => Some (d, String c r)
      | _ => None
      end
  | None => None
  end.

(** An entry whose name field is absent or empty (a [null] entry has no fields). *)
Definition unnamed (e : option NativeDef) : Prop :=
  match e with
  | Some d => def_name d = None \/ def_name d = Some ""
  | None => True
  end.

Definition is_named (e : option NativeDef) : bool :=
  match named e with Some _ => true | None => false end.

(** The record of a named entry: the name copied, the entry's key as hash,
    the module's key as module, parameters and description defaulted when
    absent, results passed through. *)
Definition record_of (m h : string) (d : NativeDef) (nm : string) : FiveMNative :=
  {| name := nm;
     hash := Some h;
     params := Some (match def_params d with Some ps => ps | None => [] end);
     results := def_results d;
     description := Some (match def_description d with Some text => text | None => "" end);
     module := Some m |}.

Definition records_of_entry (m : string) (e : string * option NativeDef) : list FiveMNative :=
  match named (snd e) with
  | Some (d, nm) => [record_of m (fst e) d nm]
  | None => []
  end.

(** Normalization over the modules and entries listed in a given order. *)
Definition normalize_in (order : forall V : Type, JsObject.t V -> JsObject.t V)
    (raw : RawCatalog) : list FiveMNative :=
  flat_map (fun mo => flat_map (records_of_entry (fst mo)) (order _ (snd mo))) (order _ raw).

(** Modules in document order, entries within each module in document order. *)
Definition normalize_document_order : RawCatalog -> list FiveMNative :=
  normalize_in (fun _ o => o).

(** Modules and entries in the order [Object.keys] lists them. *)
Definition normalize_enumeration_order : RawCatalog -> list FiveMNative :=
  normalize_in (@JsObject.enumerate).

(** The number of raw entries with a non-empty name across all modules. *)
Definition named_count (raw : RawCatalog) : nat :=
  list_sum (map (fun mo => List.length (filter (fun e => is_named (snd e)) (snd mo))) raw).

(** A catalog is a dictionary of dictionaries: one property per key at both levels. *)
Definition wf_catalog (raw : RawCatalog) : Prop :=
  JsObject.wf raw /\ forall m mo, In (m, mo) raw -> JsObject.wf mo.

(** No module key and no entry key is an array index. *)
Definition no_index_keys (raw : RawCatalog) : Prop :=
  Forall (fun mo => JsObject.is_index (fst mo) = false /\
                    Forall (fun e => JsObject.is_index (fst e) = false) (snd mo)) raw.

(** The return-type text as the design document words it: the elements joined
    with [" | "] for a sequence, the string itself for a single string, [void]
    when absent. *)
Definition stated_returns_text (r : FiveMNativeResults) : string :=
  match r with
  | Some (ResultsArray l) => join " | " l
  | Some (ResultsString s) => s
  | None => "void"
  end.

(** The parameters of a record, none when the field is absent. *)
Definition parameters (native : FiveMNative) : list FiveMNativeParam :=
  match params native with
  | Some ps => ps
  | None => []
  end.

(** The text of a placeholder: the parameter name with its mapped type as a hint. *)
Definition hint (p : FiveMNativeParam) : string :=
  p_name p ++ ": " ++ Extension.mapType (p_type p).

(** One placeholder per parameter, each on a line of its own (after a line
    break and a tab), a comma after each but the last. *)
Fixpoint placeholder_lines (ps : list FiveMNativeParam) : list SnippetPart :=
  match ps with
  | [] => []
  | p :: rest =>
      (Text (nl ++ tab) :: Placeholder (hint p) ::
       match rest with
       | [] => []
       | _ :: _ => [Text ","]
       end ++ placeholder_lines rest)%list
  end.

(** The placeholder texts of a snippet, in order. *)
Definition placeholders (snippet : SnippetString) : list string :=
  flat_map (fun part => match part with Placeholder text => [text] | _ => [] end) snippet.

(** What [activate] does after the load, given the natives it ended up with. *)
Definition registrations (natives : list FiveMNative) : list Host.Call :=
  [registerCompletionItemProvider languages (FiveMCompletionProvider natives);
   registerCompletionItemProvider languages FiveMEventsCompletionProvider;
   registerCommand "fivemdevkit.helloWorld" "Hello from FiveMDevKit!";
   registerCommand "fivemdevkit.debugResource" "Debug Resource: Not implemented yet!";
   subscriptions_push 4;
   showInformationMessage "FiveMDevKit is now active!"].

Definition nativesFile (rt : Runtime) (extensionPath : string) : string :=
  path_join rt [extensionPath; "data"; "natives.json"].

(** A record's name matches the query word when the two are equal after case folding. *)
Definition matches (word : string) (n : FiveMNative) : Prop :=
  toLowerCase (name n) = toLowerCase word.

Definition docs_prefix : string := "https://docs.fivem.net/natives/?_0x".

End Spec.

(** * Sample documents *)

Module Sample.

(** The document of the end-to-end example of the design document. *)
Definition cfx_catalog : RawCatalog :=
  [("CFX",
    [("0x1", Some {| def_name := Some "TRIGGER_MUSIC_EVENT";
                     def_params := Some [mkParam "eventName" "char*"];
                     def_results := Some (ResultsString "BOOL");
                     def_description := Some "Starts a music event." |})])].

(** Two named entries between entries without a usable name. *)
Definition mixed_catalog : RawCatalog :=
  [("PLAYER",
    [("0xA1", Some (mkDef (Some "GET_PLAYER_PED") None (Some (ResultsArray ["Ped"; "int"])) None));
     ("0xA2", Some (mkDef None None None (Some "no name")));
     ("0xA3", Some (mkDef (Some "") None None None));
     ("0xA4", None)]);
   ("CFX",
    [("0xB1", Some (mkDef (Some "triggerEvent") (Some []) None (Some "")))])].

(** A module whose entry keys are array indices, the larger one first. *)
Definition indexed_catalog : RawCatalog :=
  [("GAME",
    [("1", Some (mkDef (Some "SECOND") None None None));
     ("0", Some (mkDef (Some "FIRST") None None None))])].

(** The same name, in varying case, in two modules. *)
Definition foo_catalog : RawCatalog :=
  [("ALPHA", [("0x01", Some (mkDef (Some "Foo") None None None))]);
   ("BETA", [("0x02", Some (mkDef (Some "FOO") None None None))])].


(** An installation whose catalog file holds a truncated document. *)
Definition garbled_runtime : Runtime :=
  {| path_join := String.concat "/";
     existsSync := fun file => file =? "/ext/data/natives.json";
     readFileSync := fun _ => Returned "{";
     JSON_parse := fun _ => Thrown "SyntaxError: Unexpected end of JSON input" |}.

End Sample.

(** * The rest of the sources *)

(** ** The event completions of [src/extension.ts] *)

Module Events.

(** [new vscode.CompletionItem(label, Function)] with its detail, its
    documentation and a snippet built by the constructor alone. *)
Definition eventItem (label detail documentation snippet : string) : CompletionItem :=
  {| label := label;
     kind := Function;
     detail := detail;
     documentation := documentation;
     insertText := Some (new_SnippetString snippet) |}.

(** [FiveMEventsCompletionProvider.provideCompletionItems]. *)
Definition provideCompletionItems : list CompletionItem :=
  let completions : list CompletionItem := [] in
  let completions := push completions
    (eventItem "onNet" "FiveM event listener (client/server)"
       ("**onNet(eventName, handler)**" ++ nl ++ nl ++
        "Listens for server-to-client or client-to-server events.")
       ("onNet('${1:eventName}', (${2:args}) => {" ++ nl ++ tab ++ "$0" ++ nl ++ "});")) in
  let completions := push completions
    (eventItem "emitNet" "FiveM event emitter (client/server)"
       ("**emitNet(eventName, target, ...args)**" ++ nl ++ nl ++
        "Emits an event from the client to the server or vice versa.")
       "emitNet('${1:eventName}', ${2:target}, ${3:...args});") in
  let completions := push completions
    (eventItem "on" "Generic event listener"
       ("**on(eventName, handler)**" ++ nl ++ nl ++
        "Listens for events on the same side (client or server).")
       ("on('${1:eventName}', (${2:args}) => {" ++ nl ++ tab ++ "$0" ++ nl ++ "});")) in
  let completions := push completions
    (eventItem "registerNetEvent" "Register a network event"
       ("**registerNetEvent(eventName)**" ++ nl ++ nl ++
        "Registers a network event to be handled by the client or server.")
       "registerNetEvent('${1:eventName}');") in
  let completions := push completions
    (eventItem "triggerEvent" "Trigger a local event"
       ("**triggerEvent(eventName, ...args)**" ++ nl ++ nl ++
        "Triggers an event on the local side (client or server).")
       "triggerEvent('${1:eventName}', ${2:...args});") in
  completions.

End Events.

(** ** The refresh script [scripts/fetch-natives.mts] *)

Module FetchScript.

(** What the script does to the outside: console lines, the request, the two
    file system writes and the exit.  The second argument of [console_error]
    is the thrown value, of which the console prints the stack, or the JSON
    text when it is not an [Error]. *)
Inductive Call : Type :=
| process_on (event : string)
| console_log (line : string)
| console_error (label : string) (err : string)
| http_get (url : string)
| mkdirSync_recursive (dir : string)
| writeFileSync_utf8 (file : string) (content : string)
| process_exit (code : nat).

Definition M (A : Type) : Type := list Call -> outcome A * list Call.

Definition ret {A : Type} (a : A) : M A := fun log => (Returned a, log).

Definition bind {A B : Type} (m : M A) (k : A -> M B) : M B :=
  fun log =>
    match m log with
    | (Returned a, log') => k a log'
    | (Thrown e, log') => (Thrown e, log')
    end.

Definition call (c : Call) : M unit := fun log => (Returned tt, (log ++ [c])%list).

Definition lift {A : Type} (r : outcome A) : M A := fun log => (r, log).

(** [throw new Error(message)]. *)
Definition throw {A : Type} (message : string) : M A := fun log => (Thrown message, log).

(** A call that reaches the outside and then returns or throws. *)
Definition effect {A : Type} (c : Call) (r : outcome A) : M A :=
  fun log => (r, (log ++ [c])%list).

Definition try_catch {A : Type} (body : M A) (handler : string -> M A) : M A :=
  fun log =>
    match body log with
    | (Returned a, log') => (Returned a, log')
    | (Thrown e, log') => handler e log'
    end.

Definition run {A : Type} (m : M A) : outcome A * list Call := m [].

Declare Scope script_scope.
Notation "x <- m ;; k" := (bind m (fun x => k))
  (at level 61, m at next level, right associativity) : script_scope.
Notation "m ;;; k" := (bind m (fun _ => k))
  (at level 61, right associativity) : script_scope.
Local Open Scope script_scope.

(** [`${n}`] for a non-negative integer. *)
Definition decimal (n : nat) : string :=
  DecimalString.NilEmpty.string_of_uint (Nat.to_uint n).

Definition NATIVES_URL : string := "https://runtime.fivem.net/doc/natives.json".

Section Script.

(** The value a response body parses to. *)
Variable Data : Type.

Record Response : Type := mkResponse {
  ok : bool;
  status : nat;
  json : outcome Data
}.

(** What the runtime supplies to the script: the dynamic import, the network,
    the file system and [JSON.stringify(data, null, 2)]. *)
Record Runtime : Type := mkRuntime {
  path_join : list string -> string;
  import_node_fetch : outcome unit;
  fetch : string -> outcome Response;
  existsSync : string -> bool;
  mkdirSync : string -> outcome unit;
  writeFileSync : string -> string -> outcome unit;
  JSON_stringify : Data -> string
}.

Definition outputDir (rt : Runtime) (dirname : string) : string :=
  path_join rt [dirname; ".."; "data"].

Definition OUTPUT_FILE (rt : Runtime) (dirname : string) : string :=
  path_join rt [outputDir rt dirname; "natives.json"].

Definition fetchNatives (rt : Runtime) (dirname : string) : M unit :=
  call (console_log "Starting fetch script.") ;;;
  try_catch
    (call (console_log "Importing node-fetch dynamically...") ;;;
     lift (import_node_fetch rt) ;;;
     call (console_log "node-fetch imported successfully.") ;;;
     call (console_log ("Fetching FiveM natives from " ++ NATIVES_URL ++ " ...")) ;;;
     response <- effect (http_get NATIVES_URL) (fetch rt NATIVES_URL) ;;
     (if negb (ok response)
      then throw ("Failed to fetch. Status: " ++ decimal (status response))
      else ret tt) ;;;
     data <- lift (json response) ;;
     (if negb (existsSync rt (outputDir rt dirname))
      then
        call (console_log ("Output directory " ++ outputDir rt dirname ++
                           " does not exist. Creating...")) ;;;
        effect (mkdirSync_recursive (outputDir rt dirname))
               (mkdirSync rt (outputDir rt dirname))
      else ret tt) ;;;
     effect (writeFileSync_utf8 (OUTPUT_FILE rt dirname) (JSON_stringify rt data))
            (writeFileSync rt (OUTPUT_FILE rt dirname) (JSON_stringify rt data)) ;;;
     call (console_log ("Natives saved to " ++ OUTPUT_FILE rt dirname)))
    (fun err =>
       call (console_error "Error in fetchNatives:" err) ;;;
       throw err).

(** The module body: the two process-wide handlers, then
    [fetchNatives().catch(...)]. *)
Definition main (rt : Runtime) (dirname : string) : M unit :=
  call (process_on "uncaughtException") ;;;
  call (process_on "unhandledRejection") ;;;
  try_catch
    (fetchNatives rt dirname)
    (fun err =>
       call (console_error "Error fetching natives:" err) ;;;
       call (process_exit 1)).

End Script.

Arguments ok {Data} _.
Arguments status {Data} _.
Arguments json {Data} _.
Arguments path_join {Data} _ _.
Arguments import_node_fetch {Data} _.
Arguments fetch {Data} _ _.
Arguments existsSync {Data} _ _.
Arguments mkdirSync {Data} _ _.
Arguments writeFileSync {Data} _ _ _.
Arguments JSON_stringify {Data} _ _.
Arguments outputDir {Data} _ _.
Arguments OUTPUT_FILE {Data} _ _.
Arguments fetchNatives {Data} _ _.
Arguments main {Data} _ _.

End FetchScript.

(** ** Terms of the further properties *)

Module Derived.

(** The string without the occurrences of one character. *)
Fixpoint remove_char (x : ascii) (s : string) : string :=
  match s with
  | EmptyString => EmptyString
  | String c r => if Ascii.eqb c x then remove_char x r else String c (remove_char x r)
  end.

(** Only uppercase letters, digits and underscores, possibly none at all. *)
Definition ClassOnly (s : string) : Prop :=
  Forall (fun c => is_upper c = true \/ is_digit c = true \/ c = "_"%char) (chars s).

(** What identifies a record in a suggestion list: its module and its hash. *)
Definition record_key (x : FiveMNative) : option string * option string :=
  (module x, hash x).

(** The text of a parameter in the documentation of [src/extension.ts]. *)
Definition param_text (p : FiveMNativeParam) : string :=
  Extension.mapType (p_type p) ++ " " ++ p_name p.

(** Placeholders on one line, a comma and a blank between them. *)
Fixpoint placeholder_row (ps : list FiveMNativeParam) : list SnippetPart :=
  match ps with
  | [] => []
  | p :: rest =>
      (Placeholder (p_name p) ::
       match rest with
       | [] => []
       | _ :: _ => [Text ", "]
       end ++ placeholder_row rest)%list
  end.

(** What the other revision's [activate] does after the load. *)
Definition revision_registrations (natives : list FiveMNative) : list Host.Call :=
  [registerCompletionItemProvider languages (FiveMCompletionProvider natives);
   registerDefinitionProvider languages (FiveMDefinitionProvider natives);
   registerCommand "fivemdevkit.helloWorld" "Hello from FiveMDevKit!";
   registerCommand "fivemdevkit.debugResource" "Debug Resource: Not implemented yet!";
   subscriptions_push 4;
   showInformationMessage "FiveMDevKit is now active!"].

Definition revision_warning : string :=
  "FiveM natives.json not found. Please run " ++ dquote ++ "npm run fetch-natives" ++
  dquote ++ " or place the file in the data folder.".

(** The console lines of the refresh script up to the request. *)
Definition script_prologue : list FetchScript.Call :=
  [FetchScript.process_on "uncaughtException";
   FetchScript.process_on "unhandledRejection";
   FetchScript.console_log "Starting fetch script.";
   FetchScript.console_log "Importing node-fetch dynamically..."].

Definition script_request : list FetchScript.Call :=
  [FetchScript.console_log "node-fetch imported successfully.";
   FetchScript.console_log
     ("Fetching FiveM natives from " ++ FetchScript.NATIVES_URL ++ " ...");
   FetchScript.http_get FetchScript.NATIVES_URL].

(** How every failure of the refresh script ends: the error reported by
    [fetchNatives], reported again by the caller, and exit status 1. *)
Definition script_failure (err : string) : list FetchScript.Call :=
  [FetchScript.console_error "Error in fetchNatives:" err;
   FetchScript.console_error "Error fetching natives:" err;
   FetchScript.process_exit 1].

Definition is_write (c : FetchScript.Call) : bool :=
  match c with FetchScript.writeFileSync_utf8 _ _ => true | _ => false end.

Definition is_mkdir (c : FetchScript.Call) : bool :=
  match c with FetchScript.mkdirSync_recursive _ => true | _ => false end.

Definition is_exit (c : FetchScript.Call) : bool :=
  match c with FetchScript.process_exit _ => true | _ => false end.

Definition returned {A : Type} (r : outcome A) : bool :=
  match r with Returned _ => true | Thrown _ => false end.

(** Every step of the refresh returns: the import, the request with a
    success status, the parse of the body, the creation of the directory when
    it is missing, and the write. *)
Definition refresh_ok {Data : Type} (rt : FetchScript.Runtime Data) (dirname : string) : bool :=
  match FetchScript.import_node_fetch rt, FetchScript.fetch rt FetchScript.NATIVES_URL with
  | Returned _, Returned response =>
      FetchScript.ok response &&
      match FetchScript.json response with
      | Returned data =>
          (FetchScript.existsSync rt (FetchScript.outputDir rt dirname) ||
           returned (FetchScript.mkdirSync rt (FetchScript.outputDir rt dirname))) &&
          returned (FetchScript.writeFileSync rt (FetchScript.OUTPUT_FILE rt dirname)
                      (FetchScript.JSON_stringify rt data))
      | Thrown _ => false
      end
  | _, _ => false
  end.

(** The write of the script and what follows it. *)
Definition script_write {Data : Type} (rt : FetchScript.Runtime Data) (dirname : string)
    (data : Data) : list FetchScript.Call * option string :=
  let file := FetchScript.OUTPUT_FILE rt dirname in
  let content := FetchScript.JSON_stringify rt data in
  match FetchScript.writeFileSync rt file content with
  | Returned _ =>
      ([FetchScript.writeFileSync_utf8 file content;
        FetchScript.console_log ("Natives saved to " ++ file)], None)
  | Thrown e => ([FetchScript.writeFileSync_utf8 file content], Some e)
  end.

Definition script_mkdir {Data : Type} (rt : FetchScript.Runtime Data) (dirname : string)
  : list FetchScript.Call :=
  [FetchScript.console_log
     ("Output directory " ++ FetchScript.outputDir rt dirname ++ " does not exist. Creating...");
   FetchScript.mkdirSync_recursive (FetchScript.outputDir rt dirname)].

(** The calls of the script after its first four lines, and the error that
    ended them, if any. *)
Definition script_body {Data : Type} (rt : FetchScript.Runtime Data) (dirname : string)
  : list FetchScript.Call * option string :=
  match FetchScript.import_node_fetch rt with
  | Thrown e => ([], Some e)
  | Returned _ =>
      match FetchScript.fetch rt FetchScript.NATIVES_URL with
      | Thrown e => (script_request, Some e)
      | Returned response =>
          if FetchScript.ok response then
            match FetchScript.json response with
            | Thrown e => (script_request, Some e)
            | Returned data =>
                if FetchScript.existsSync rt (FetchScript.outputDir rt dirname) then
                  ((script_request ++ fst (script_write rt dirname data))%list,
                   snd (script_write rt dirname data))
                else
                  match FetchScript.mkdirSync rt (FetchScript.outputDir rt dirname) with
                  | Thrown e => ((script_request ++ script_mkdir rt dirname)%list, Some e)
                  | Returned _ =>
                      ((script_request ++ script_mkdir rt dirname ++
                        fst (script_write rt dirname data))%list,
                       snd (script_write rt dirname data))
                  end
            end
          else
            (script_request,
             Some ("Failed to fetch. Status: " ++
                   FetchScript.decimal (FetchScript.status response)))
      end
  end.

End Derived.

(** Further sample installations. *)

Module Sample2.

(** An installation whose catalog file holds the example document. *)
Definition loaded_runtime : Runtime :=
  {| path_join := String.concat "/";
     existsSync := fun file => file =? "/ext/data/natives.json";
     readFileSync := fun _ => Returned "{...}";
     JSON_parse := fun _ => Returned Sample.cfx_catalog |}.

(** An installation whose catalog file exists and cannot be read. *)
Definition unreadable_runtime : Runtime :=
  {| path_join := String.concat "/";
     existsSync := fun _ => true;
     readFileSync := fun _ => Thrown "EACCES: permission denied";
     JSON_parse := fun _ => Returned [] |}.

(** A refresh whose request is answered with status 404. *)
Definition not_found_script : FetchScript.Runtime string :=
  FetchScript.mkRuntime string (String.concat "/") (Returned tt)
    (fun _ => Returned (FetchScript.mkResponse string false 404 (Returned "Not Found")))
    (fun _ => true) (fun _ => Returned tt) (fun _ _ => Returned tt) (fun data => data).

(** A refresh that succeeds into a directory that does not exist yet. *)
Definition fresh_script : FetchScript.Runtime string :=
  FetchScript.mkRuntime string (String.concat "/") (Returned tt)
    (fun _ => Returned (FetchScript.mkResponse string true 200 (Returned "{}")))
    (fun _ => false) (fun _ => Returned tt) (fun _ _ => Returned tt) (fun data => data).

(** The names [Foo] and [FOO] in two modules whose keys are array indices,
    the larger key first in the document. *)
Definition indexed_foo_catalog : RawCatalog :=
  [("1", [("0x01", Some (mkDef (Some "Foo") None None None))]);
   ("0", [("0x02", Some (mkDef (Some "FOO") None None None))])].

(** A record without parameters and a record with one. *)
Definition timer_native : FiveMNative :=
  {| name := "GET_GAME_TIMER"; hash := Some "0x9CD27B0045628463"; params := Some [];
     results := Some (ResultsString "int"); description := Some ""; module := Some "MISC" |}.

Definition music_native : FiveMNative :=
  {| name := "TRIGGER_MUSIC_EVENT"; hash := Some "0x1";
     params := Some [mkParam "eventName" "char*"];
     results := Some (ResultsString "BOOL"); description := Some "Starts a music event.";
     module := Some "CFX" |}.

End Sample2.

(** * Properties *)

(** ** Strings *)

Section StringFacts.

Lemma lower_upper_char (c : ascii) : lower_char (upper_char c) = lower_char c.
Proof. destruct c as [[] [] [] [] [] [] [] []]; reflexivity. Qed.

Lemma lower_lower_char (c : ascii) : lower_char (lower_char c) = lower_char c.
Proof. destruct c as [[] [] [] [] [] [] [] []]; reflexivity. Qed.

Lemma toLowerCase_toUpperCase (s : string) :
  toLowerCase (toUpperCase s) = toLowerCase s.
Proof.
  induction s as [|c r IH]; simpl; [reflexivity|].
  now rewrite lower_upper_char, IH.
Qed.

Lemma toLowerCase_idem (s : string) : toLowerCase (toLowerCase s) = toLowerCase s.
Proof.
  induction s as [|c r IH]; simpl; [reflexivity|].
  now rewrite lower_lower_char, IH.
Qed.

Lemma append_assoc (a b c : string) : (a ++ b) ++ c = a ++ b ++ c.
Proof. induction a as [|x a IH]; simpl; congruence. Qed.

Lemma append_empty_r (s : string) : s ++ "" = s.
Proof. induction s as [|c r IH]; simpl; congruence. Qed.

Lemma split_not_nil (sep : ascii) (s : string) : split sep s <> [].
Proof.
  induction s as [|c r IH]; simpl; [discriminate|].
  destruct (Ascii.eqb c sep); [discriminate|].
  destruct (split sep r); discriminate.
Qed.

(** A chunk without the separator is its own split. *)
Lemma split_chunk (sep : ascii) (h : string) :
  ~ In sep (chars h) -> split sep h = [h].
Proof.
  induction h as [|c r IH]; simpl; intros Hn; [reflexivity|].
  destruct (Ascii.eqb_spec c sep) as [->|Hc].
  - exfalso; apply Hn; now left.
  - rewrite IH by (intros Hin; apply Hn; now right). reflexivity.
Qed.

Lemma split_chunk_sep (sep : ascii) (h rest : string) :
  ~ In sep (chars h) ->
  split sep (h ++ String sep rest) = h :: split sep rest.
Proof.
  induction h as [|c r IH]; simpl; intros Hn.
  - now rewrite Ascii.eqb_refl.
  - destruct (Ascii.eqb_spec c sep) as [->|Hc].
    + exfalso; apply Hn; now left.
    + rewrite IH by (intros Hin; apply Hn; now right). reflexivity.
Qed.

(** Splitting undoes joining chunks that are free of the separator. *)
Lemma split_join (sep : ascii) (chunks : list string) :
  chunks <> [] ->
  Forall (fun chunk => ~ In sep (chars chunk)) chunks ->
  split sep (join (String sep "") chunks) = chunks.
Proof.
  induction chunks as [|h t IH]; intros Hne Hfree; [congruence|].
  inversion Hfree as [|? ? Hh Ht]; subst.
  destruct t as [|h' t'].
  - simpl. now apply split_chunk.
  - change (join (String sep "") (h :: h' :: t'))
      with (h ++ String sep (join (String sep "") (h' :: t'))).
    rewrite split_chunk_sep by assumption.
    f_equal. apply IH; [discriminate|assumption].
Qed.

Lemma join_split (sep : ascii) (s : string) :
  join (String sep "") (split sep s) = s.
Proof.
  induction s as [|c r IH]; simpl; [reflexivity|].
  destruct (Ascii.eqb_spec c sep) as [->|Hc].
  - pose proof (split_not_nil sep r) as Hne.
    destruct (split sep r) as [|h t]; [congruence|].
    change (join (String sep "") ("" :: h :: t))
      with (String sep (join (String sep "") (h :: t))).
    now rewrite IH.
  - pose proof (split_not_nil sep r) as Hne.
    destruct (split sep r) as [|h t]; [congruence|].
    rewrite <- IH.
    destruct t; reflexivity.
Qed.

Lemma split_free (sep : ascii) (s : string) :
  Forall (fun chunk => ~ In sep (chars chunk)) (split sep s).
Proof.
  induction s as [|c r IH]; simpl.
  - constructor; [intros []|constructor].
  - destruct (Ascii.eqb_spec c sep) as [->|Hc].
    + constructor; [intros []|assumption].
    + destruct (split sep r) as [|h t].
      * constructor; [|constructor]. simpl. intros [E|[]]. congruence.
      * inversion IH as [|? ? Hh Ht]; subst.
        constructor; [|assumption].
        simpl. intros [E|Hin]; [congruence|contradiction].
Qed.

(** [split] computes the split of the design document, and it is the only one. *)
Lemma split_spec (sep : ascii) (s : string) : Spec.SplitOn sep s (split sep s).
Proof.
  repeat split; [apply split_not_nil|apply join_split|apply split_free].
Qed.

Lemma SplitOn_unique (sep : ascii) (s : string) (chunks : list string) :
  Spec.SplitOn sep s chunks -> chunks = split sep s.
Proof.
  intros (Hne & Hjoin & Hfree). rewrite <- Hjoin. symmetry. now apply split_join.
Qed.

End StringFacts.

(** ** The casing transform and the type mapper *)

Section Casing.

Import Extension.

Lemma all_in_class_Forall (s : string) :
  all_in_class s = true <->
  Forall (fun c => is_upper c = true \/ is_digit c = true \/ c = "_"%char) (chars s).
Proof.
  induction s as [|c r IH]; simpl.
  - split; [constructor|reflexivity].
  - rewrite andb_true_iff, IH. unfold in_class.
    rewrite !orb_true_iff, Ascii.eqb_eq.
    split.
    + intros [[[H|H]|H] Hr]; constructor; auto.
    + intros H. inversion H as [|? ? Hc Hr]; subst.
      split; [|assumption]. destruct Hc as [Hc|[Hc|Hc]]; auto.
Qed.

(** The regular expression test decides the pattern of the design document. *)
Lemma test_upper_snake_spec (s : string) :
  test_upper_snake s = true <-> Spec.UpperSnake s.
Proof.
  unfold Spec.UpperSnake. destruct s as [|c r].
  - simpl. split; [discriminate|]. intros [H _]. congruence.
  - change (test_upper_snake (String c r)) with (all_in_class (String c r)).
    rewrite all_in_class_Forall. split; [intros H; split; [discriminate|exact H]|tauto].
Qed.

Lemma chunk_rule (chunk : string) :
  toUpperCase (charAt0 chunk) ++ toLowerCase (slice 1 chunk) = Spec.capitalize_chunk chunk.
Proof. destruct chunk; reflexivity. Qed.

Lemma first_rule (s : string) :
  toUpperCase (charAt0 s) ++ slice 1 s = Spec.capitalize_first s.
Proof. destruct s; reflexivity. Qed.

(** C4. [toPascalCase] (the design document's [toDisplayName]) is a total
    function on strings.  On an input that consists, in its entirety, of one or
    more uppercase letters, digits and underscores, the output is obtained from
    the split of the input on underscore by uppercasing the first character and
    lowercasing the remainder of every chunk and concatenating the chunks with
    no separator.  On any other input the output is the input with its first
    character uppercased and the remainder untouched.  In particular
    [TRIGGER_MUSIC_EVENT] gives [TriggerMusicEvent], [triggerEvent] gives
    [TriggerEvent] and [A_B] gives [AB]. *)
Theorem toPascalCase_rule :
  (forall s chunks,
      Spec.UpperSnake s -> Spec.SplitOn "_" s chunks ->
      toPascalCase s = join "" (map Spec.capitalize_chunk chunks)) /\
  (forall s, ~ Spec.UpperSnake s -> toPascalCase s = Spec.capitalize_first s) /\
  toPascalCase "TRIGGER_MUSIC_EVENT" = "TriggerMusicEvent" /\
  toPascalCase "triggerEvent" = "TriggerEvent" /\
  toPascalCase "A_B" = "AB".
Proof.
  split; [|split; [|repeat split]].
  - intros s chunks Hs Hsplit.
    apply test_upper_snake_spec in Hs.
    unfold toPascalCase. rewrite Hs.
    rewrite (SplitOn_unique _ _ _ Hsplit).
    f_equal. apply map_ext. exact chunk_rule.
  - intros s Hs. unfold toPascalCase.
    destruct (test_upper_snake s) eqn:E.
    + exfalso. apply Hs. now apply test_upper_snake_spec.
    + apply first_rule.
Qed.

(** The rule of C4 applies to some split of every matching input. *)
Lemma toPascalCase_rule_witness :
  Spec.UpperSnake "A_B" /\ Spec.SplitOn "_" "A_B" ["A"; "B"] /\
  toPascalCase "A_B" = join "" (map Spec.capitalize_chunk ["A"; "B"]).
Proof.
  assert (Hs : Spec.UpperSnake "A_B").
  { split; [discriminate|]. simpl.
    repeat (constructor; [vm_compute; auto|]). constructor. }
  assert (Hc : Spec.SplitOn "_" "A_B" ["A"; "B"]).
  { split; [discriminate|]. split; [reflexivity|].
    repeat constructor; simpl; intros [E|[]]; discriminate. }
  split; [exact Hs|split; [exact Hc|]].
  exact (proj1 toPascalCase_rule "A_B" ["A"; "B"] Hs Hc).
Defined.

(** C7. [mapType] is a function of the case-folded input only: it gives
    [string] for [char*], [number] for [float] and [int], [boolean] for [bool],
    each matched against the whole lowercased input, and the lowercased input
    for anything else; inputs with the same lowercased text have the same
    image, so lowercasing the input, or uppercasing an input of ASCII text,
    does not change the image.  In particular [char*] gives [string], [FLOAT]
    gives [number], [Bool] gives [boolean] and [Vector3] gives [vector3]. *)
Theorem mapType_table :
  (forall t, toLowerCase t = "char*" -> mapType t = "string") /\
  (forall t, toLowerCase t = "float" \/ toLowerCase t = "int" -> mapType t = "number") /\
  (forall t, toLowerCase t = "bool" -> mapType t = "boolean") /\
  (forall t, ~ In (toLowerCase t) Spec.mapped_names -> mapType t = toLowerCase t) /\
  (forall t u, toLowerCase t = toLowerCase u -> mapType t = mapType u) /\
  (forall t, mapType (toLowerCase t) = mapType t) /\
  (forall t, Spec.AsciiText t -> mapType (toUpperCase t) = mapType t) /\
  mapType "char*" = "string" /\
  mapType "FLOAT" = "number" /\
  mapType "Bool" = "boolean" /\
  mapType "Vector3" = "vector3".
Proof.
  assert (Hfold : forall t u, toLowerCase t = toLowerCase u -> mapType t = mapType u).
  { intros t u E. unfold mapType. now rewrite E. }
  repeat match goal with |- _ /\ _ => split end; try reflexivity.
  - intros t E. unfold mapType. now rewrite E.
  - intros t [E|E]; unfold mapType; now rewrite E.
  - intros t E. unfold mapType. now rewrite E.
  - intros t Hn. unfold mapType.
    destruct (String.eqb_spec (toLowerCase t) "char*") as [E|_];
      [exfalso; apply Hn; rewrite E; simpl; tauto|].
    destruct (String.eqb_spec (toLowerCase t) "float") as [E|_];
      [exfalso; apply Hn; rewrite E; simpl; tauto|].
    destruct (String.eqb_spec (toLowerCase t) "int") as [E|_];
      [exfalso; apply Hn; rewrite E; simpl; tauto|].
    destruct (String.eqb_spec (toLowerCase t) "bool") as [E|_];
      [exfalso; apply Hn; rewrite E; simpl; tauto|].
    reflexivity.
  - exact Hfold.
  - intros t. apply Hfold, toLowerCase_idem.
  - intros t _. apply Hfold, toLowerCase_toUpperCase.
Qed.

Lemma mapType_table_witness :
  Spec.AsciiText "float" /\ mapType (toUpperCase "float") = mapType "float".
Proof.
  assert (Ht : Spec.AsciiText "float").
  { unfold Spec.AsciiText. simpl.
    repeat (constructor; [apply Nat.ltb_lt; reflexivity|]). constructor. }
  split; [exact Ht|].
  exact (proj1 (proj2 (proj2 (proj2 (proj2 (proj2 (proj2 mapType_table)))))) "float" Ht).
Defined.

End Casing.

(** ** Objects: enumeration order and property access *)

Section ObjectFacts.

Import JsObject.
Context {V : Type}.

Lemma insert_index_perm (n : N) (e : string * V) (l : list (N * (string * V))) :
  Permutation (map snd (insert_index n e l)) (e :: map snd l).
Proof.
  induction l as [|[m e'] r IH]; simpl; [reflexivity|].
  destruct (n <? m)%N; simpl; [reflexivity|].
  rewrite IH. apply perm_swap.
Qed.

Lemma insert_index_sorted (n : N) (e : string * V) (l : list (N * (string * V))) :
  Sorted (fun a b => (fst a <= fst b)%N) l ->
  Sorted (fun a b => (fst a <= fst b)%N) (insert_index n e l).
Proof.
  induction l as [|[m e'] r IH]; simpl; intros Hs.
  - repeat constructor.
  - destruct (N.ltb_spec n m) as [Hlt|Hge].
    + constructor; [exact Hs|]. constructor. simpl. lia.
    + inversion Hs as [|? ? Hr Hhd]; subst.
      constructor; [now apply IH|].
      destruct r as [|[m' e''] r']; simpl.
      * constructor. simpl. exact Hge.
      * destruct (n <? m')%N; constructor; simpl; [exact Hge|].
        inversion Hhd; subst. assumption.
Qed.

(** The array-index keys are listed by ascending index. *)
Lemma index_entries_sorted (o : t V) :
  Sorted (fun a b => (fst a <= fst b)%N) (index_entries o).
Proof.
  induction o as [|e r IH]; simpl; [constructor|].
  destruct (array_index (fst e)); [now apply insert_index_sorted|exact IH].
Qed.

(** [Object.keys] lists every property once: the enumeration is a
    rearrangement of the properties. *)
Lemma enumerate_perm (o : t V) : Permutation (enumerate o) o.
Proof.
  unfold enumerate, string_entries, is_index.
  induction o as [|e r IH]; simpl; [reflexivity|].
  destruct (array_index (fst e)) as [n|]; simpl.
  - rewrite insert_index_perm. simpl. now apply perm_skip.
  - symmetry. apply Permutation_cons_app. now symmetry.
Qed.

Lemma index_entries_no_index (o : t V) :
  Forall (fun e => is_index (fst e) = false) o -> index_entries o = [].
Proof.
  unfold is_index. induction 1 as [|e r He Hr IH]; simpl; [reflexivity|].
  destruct (array_index (fst e)); [discriminate|exact IH].
Qed.

Lemma string_entries_no_index (o : t V) :
  Forall (fun e => is_index (fst e) = false) o -> string_entries o = o.
Proof.
  unfold string_entries. induction 1 as [|e r He Hr IH]; simpl; [reflexivity|].
  rewrite He. simpl. now rewrite IH.
Qed.

(** Without array-index keys the enumeration is the creation order. *)
Lemma enumerate_no_index (o : t V) :
  Forall (fun e => is_index (fst e) = false) o -> enumerate o = o.
Proof.
  intros H. unfold enumerate.
  now rewrite index_entries_no_index, string_entries_no_index.
Qed.

Lemma get_In (o : t V) (k : string) (v : V) :
  wf o -> In (k, v) o -> get o k = Some v.
Proof.
  unfold wf. induction o as [|[k' v'] r IH]; simpl; intros Hnd Hin; [contradiction|].
  inversion Hnd as [|? ? Hk' Hr]; subst.
  destruct Hin as [E|Hin].
  - inversion E; subst. now rewrite String.eqb_refl.
  - destruct (String.eqb_spec k' k) as [->|_].
    + exfalso. apply Hk'. change k with (fst (k, v)). now apply in_map.
    + now apply IH.
Qed.

Lemma wf_In_eq (o : t V) (k : string) (v v' : V) :
  wf o -> In (k, v) o -> In (k, v') o -> v = v'.
Proof.
  intros Hwf H1 H2.
  apply (get_In _ _ _ Hwf) in H1. apply (get_In _ _ _ Hwf) in H2. congruence.
Qed.

Lemma enumerate_In (o : t V) (e : string * V) : In e (enumerate o) <-> In e o.
Proof.
  split; apply Permutation_in; [|symmetry]; apply enumerate_perm.
Qed.

End ObjectFacts.

Section ListFacts.

Context {A B : Type}.

Lemma fold_left_push (f : list B -> A -> list B) (g : A -> list B) :
  (forall acc x, f acc x = (acc ++ g x)%list) ->
  forall l acc, fold_left f l acc = (acc ++ flat_map g l)%list.
Proof.
  intros Hf. induction l as [|x l IH]; intros acc; simpl.
  - now rewrite app_nil_r.
  - now rewrite IH, Hf, <- app_assoc.
Qed.

Lemma flat_map_length (g : A -> list B) (l : list A) :
  List.length (flat_map g l) = list_sum (map (fun x => List.length (g x)) l).
Proof.
  induction l as [|x l IH]; simpl; [reflexivity|].
  now rewrite length_app, IH.
Qed.

Lemma list_sum_perm (h : A -> nat) (l l' : list A) :
  Permutation l l' -> list_sum (map h l) = list_sum (map h l').
Proof.
  induction 1; simpl; lia.
Qed.

End ListFacts.

(** ** Normalization *)

Section Normalization.

Import JsObject.

Lemma parseNatives_entry_push (m : string) (mo : RawModule)
    (result : list FiveMNative) (h : string) :
  parseNatives_entry m mo result h = (result ++ parseNatives_entry m mo [] h)%list.
Proof.
  unfold parseNatives_entry, push.
  destruct (get mo h) as [[d|]|]; try now rewrite app_nil_r.
  destruct (def_name d) as [[|c r]|]; try now rewrite app_nil_r.
  reflexivity.
Qed.

Lemma or_string_default (a : option string) :
  or_string a "" = match a with Some text => text | None => "" end.
Proof. destruct a as [[|c r]|]; reflexivity. Qed.

(** One turn of the inner loop emits the record of the entry, if it is named. *)
Lemma parseNatives_entry_records (m : string) (mo : RawModule) (e : string * option NativeDef) :
  wf mo -> In e mo ->
  parseNatives_entry m mo [] (fst e) = Spec.records_of_entry m e.
Proof.
  intros Hwf Hin. destruct e as [h e]. simpl.
  unfold parseNatives_entry, Spec.records_of_entry, Spec.named. simpl.
  rewrite (get_In mo h e Hwf Hin).
  destruct e as [d|]; [|reflexivity].
  destruct (def_name d) as [[|c r]|]; try reflexivity.
  unfold push, Spec.record_of. simpl. now rewrite or_string_default.
Qed.

Lemma flat_map_keys {W C : Type} (g : string -> list C) (g' : string * W -> list C)
    (l : list (string * W)) :
  (forall e, In e l -> g (fst e) = g' e) ->
  flat_map g (map fst l) = flat_map g' l.
Proof.
  induction l as [|e l IH]; simpl; intros Hg; [reflexivity|].
  rewrite Hg by now left. f_equal. apply IH. intros e' He'. apply Hg. now right.
Qed.

Lemma parseNatives_inner (m : string) (mo : RawModule) (result : list FiveMNative) :
  wf mo ->
  fold_left (parseNatives_entry m mo) (keys mo) result =
  (result ++ flat_map (Spec.records_of_entry m) (enumerate mo))%list.
Proof.
  intros Hwf.
  rewrite (fold_left_push _ (parseNatives_entry m mo [])) by apply parseNatives_entry_push.
  f_equal. unfold keys. apply flat_map_keys.
  intros e He. apply parseNatives_entry_records; [assumption|].
  now apply (proj1 (enumerate_In _ _)).
Qed.

(** The two loops of [parseNatives] visit the modules and the entries in the
    order [Object.keys] lists them. *)
Lemma parseNatives_enumeration (raw : RawCatalog) :
  Spec.wf_catalog raw -> parseNatives raw = Spec.normalize_enumeration_order raw.
Proof.
  intros [Hwf Hmods].
  unfold parseNatives, Spec.normalize_enumeration_order, Spec.normalize_in.
  rewrite (fold_left_push _ (parseNatives_module raw [])).
  - simpl. unfold keys. apply flat_map_keys.
    intros [m mo] He. apply (proj1 (enumerate_In _ _)) in He. simpl.
    unfold parseNatives_module. rewrite (get_In raw m mo Hwf He).
    rewrite parseNatives_inner by (eapply Hmods; eassumption).
    reflexivity.
  - intros acc m. unfold parseNatives_module.
    destruct (get raw m) as [mo|] eqn:E; [|now rewrite app_nil_r].
    assert (Hin : In (m, mo) raw).
    { clear - E. induction raw as [|[k v] r IH]; simpl in *; [discriminate|].
      destruct (String.eqb_spec k m) as [->|_]; [left; congruence|right; auto]. }
    rewrite !parseNatives_inner by (eapply Hmods; eassumption).
    reflexivity.
Qed.

Lemma normalize_no_index (raw : RawCatalog) :
  Spec.no_index_keys raw ->
  Spec.normalize_enumeration_order raw = Spec.normalize_document_order raw.
Proof.
  unfold Spec.normalize_enumeration_order, Spec.normalize_document_order, Spec.normalize_in.
  intros H.
  rewrite enumerate_no_index
    by (eapply Forall_impl; [|exact H]; intros mo [Hm _]; exact Hm).
  induction H as [|mo r [_ Hmo] Hr IH]; simpl; [reflexivity|].
  rewrite IH. now rewrite enumerate_no_index.
Qed.

(** Every record comes from a named entry, and every named entry has its record. *)
Lemma In_normalize (raw : RawCatalog) (x : FiveMNative) :
  In x (Spec.normalize_enumeration_order raw) <->
  exists m mo h d nm,
    In (m, mo) raw /\ In (h, Some d) mo /\ def_name d = Some nm /\ nm <> "" /\
    x = Spec.record_of m h d nm.
Proof.
  unfold Spec.normalize_enumeration_order, Spec.normalize_in.
  rewrite in_flat_map. split.
  - intros ([m mo] & Hmo & Hx). simpl in Hx.
    apply in_flat_map in Hx. destruct Hx as ([h e] & He & Hx).
    apply (proj1 (enumerate_In _ _)) in Hmo. apply (proj1 (enumerate_In _ _)) in He.
    unfold Spec.records_of_entry, Spec.named in Hx. simpl in Hx.
    destruct e as [d|]; [|contradiction].
    destruct (def_name d) as [[|c r]|] eqn:En; try contradiction.
    destruct Hx as [<-|[]].
    exists m, mo, h, d, (String c r). repeat split; try assumption. discriminate.
  - intros (m & mo & h & d & nm & Hmo & He & Hn & Hne & ->).
    exists (m, mo). split; [now apply (proj2 (enumerate_In _ _))|]. simpl.
    apply in_flat_map. exists (h, Some d). split; [now apply (proj2 (enumerate_In _ _))|].
    unfold Spec.records_of_entry, Spec.named. simpl. rewrite Hn.
    destruct nm; [congruence|]. now left.
Qed.

Lemma records_of_entry_length (m : string) (e : string * option NativeDef) :
  List.length (Spec.records_of_entry m e) = if Spec.is_named (snd e) then 1 else 0.
Proof.
  unfold Spec.records_of_entry, Spec.is_named.
  destruct (Spec.named (snd e)) as [[d nm]|]; reflexivity.
Qed.

Lemma filter_length_sum {A : Type} (f : A -> bool) (l : list A) :
  List.length (filter f l) = list_sum (map (fun x => if f x then 1 else 0) l).
Proof.
  induction l as [|x l IH]; simpl; [reflexivity|].
  destruct (f x); simpl; now rewrite IH.
Qed.

Lemma normalize_length (raw : RawCatalog) :
  List.length (Spec.normalize_enumeration_order raw) = Spec.named_count raw.
Proof.
  unfold Spec.normalize_enumeration_order, Spec.normalize_in, Spec.named_count.
  rewrite flat_map_length.
  rewrite (list_sum_perm _ _ _ (enumerate_perm raw)).
  f_equal. apply map_ext. intros [m mo]. simpl.
  rewrite flat_map_length.
  rewrite (list_sum_perm _ _ _ (enumerate_perm mo)).
  rewrite filter_length_sum.
  f_equal. apply map_ext. intros e. apply records_of_entry_length.
Qed.

End Normalization.

Ltac solve_wf_catalog :=
  split;
  [ unfold JsObject.wf; simpl; repeat constructor; simpl; intuition discriminate
  | intros ? ? Hin; simpl in Hin;
    repeat (destruct Hin as [Hin|Hin];
            [ injection Hin as <- <-; unfold JsObject.wf; simpl;
              repeat constructor; simpl; intuition discriminate | ]);
    contradiction ].

(** The claim of C1 as stated fails on a module whose entry keys are array
    indices: the document lists key [1] before key [0], [Object.keys] lists
    [0] first, and so the record of the second entry comes first. *)
Lemma parseNatives_document_order_counterexample :
  Spec.wf_catalog Sample.indexed_catalog /\
  map name (Spec.normalize_document_order Sample.indexed_catalog) = ["SECOND"; "FIRST"] /\
  map name (parseNatives Sample.indexed_catalog) = ["FIRST"; "SECOND"] /\
  parseNatives Sample.indexed_catalog <> Spec.normalize_document_order Sample.indexed_catalog.
Proof.
  split; [solve_wf_catalog|].
  split; [reflexivity|]. split; [reflexivity|].
  vm_compute. discriminate.
Qed.

(** C1 (amended). For every raw catalog and every raw entry whose name is
    present and non-empty, normalization emits the record that copies the name,
    has the entry's key as hash and the module's key as module, has the empty
    sequence for absent parameters and the empty string for an absent
    description, and passes results through.  The records appear in the order
    in which [Object.keys] lists the modules and, within a module, the entries:
    keys that are array indices first, by ascending value, then the other keys
    in document order.  When no module key and no entry key is an array index
    this is the document order. *)
Theorem parseNatives_records (raw : RawCatalog) :
  Spec.wf_catalog raw ->
  parseNatives raw = Spec.normalize_enumeration_order raw /\
  (Spec.no_index_keys raw -> parseNatives raw = Spec.normalize_document_order raw) /\
  (forall m mo h d nm,
      In (m, mo) raw -> In (h, Some d) mo -> def_name d = Some nm -> nm <> "" ->
      In (Spec.record_of m h d nm) (parseNatives raw)).
Proof.
  intros Hwf. pose proof (parseNatives_enumeration raw Hwf) as E.
  split; [exact E|split].
  - intros Hno. rewrite E. now apply normalize_no_index.
  - intros m mo h d nm Hmo He Hn Hne. rewrite E.
    apply In_normalize. exists m, mo, h, d, nm. now repeat split.
Qed.

Lemma parseNatives_records_witness :
  Spec.wf_catalog Sample.cfx_catalog /\
  parseNatives Sample.cfx_catalog = Spec.normalize_enumeration_order Sample.cfx_catalog.
Proof.
  assert (Hwf : Spec.wf_catalog Sample.cfx_catalog) by solve_wf_catalog.
  split; [exact Hwf|].
  exact (proj1 (parseNatives_records Sample.cfx_catalog Hwf)).
Defined.

Lemma unnamed_named (e : option NativeDef) : Spec.unnamed e -> Spec.named e = None.
Proof.
  destruct e as [d|]; simpl; [|reflexivity].
  intros [E|E]; now rewrite E.
Qed.

(** C2. For every raw catalog, an entry whose name field is absent or empty
    has no record in the normalized list, every record of the list comes from
    an entry with a present, non-empty name, and the length of the list is the
    number of entries with a non-empty name across all modules. *)
Theorem parseNatives_named_only (raw : RawCatalog) :
  Spec.wf_catalog raw ->
  List.length (parseNatives raw) = Spec.named_count raw /\
  (forall x, In x (parseNatives raw) ->
     exists m mo h d,
       In (m, mo) raw /\ In (h, Some d) mo /\
       def_name d = Some (name x) /\ name x <> "" /\
       module x = Some m /\ hash x = Some h) /\
  (forall m mo h e,
      In (m, mo) raw -> In (h, e) mo -> Spec.unnamed e ->
      forall x, In x (parseNatives raw) -> ~ (module x = Some m /\ hash x = Some h)).
Proof.
  intros Hwf. pose proof (parseNatives_enumeration raw Hwf) as E.
  destruct Hwf as [Hwf Hmods].
  split; [|split].
  - rewrite E. apply normalize_length.
  - intros x Hx. rewrite E in Hx. apply In_normalize in Hx.
    destruct Hx as (m & mo & h & d & nm & Hmo & He & Hn & Hne & ->).
    exists m, mo, h, d. now repeat split.
  - intros m mo h e Hmo He Hun x Hx [Hm Hh].
    rewrite E in Hx. apply In_normalize in Hx.
    destruct Hx as (m' & mo' & h' & d & nm & Hmo' & He' & Hn & Hne & ->).
    simpl in Hm, Hh. injection Hm as ->. injection Hh as ->.
    assert (mo' = mo) by (eapply wf_In_eq; eassumption). subst mo'.
    assert (Some d = e) by (eapply wf_In_eq; [eapply Hmods| |]; eassumption).
    subst e. simpl in Hun. destruct Hun as [Hun|Hun]; congruence.
Qed.

Lemma parseNatives_named_only_witness :
  Spec.wf_catalog Sample.mixed_catalog /\
  List.length (parseNatives Sample.mixed_catalog) = 2 /\
  Spec.named_count Sample.mixed_catalog = 2.
Proof.
  assert (Hwf : Spec.wf_catalog Sample.mixed_catalog) by solve_wf_catalog.
  split; [exact Hwf|]. split; [|reflexivity].
  exact (proj1 (parseNatives_named_only Sample.mixed_catalog Hwf)).
Defined.

(** ** The suggestion formatter *)

(** The claim of C5 as stated fails on a record whose results field is the
    empty string in [src/extension.ts], where [results || "void"] takes the
    default, not the string; and on a record whose results field is the empty
    sequence in the other revision, where the length test takes the default,
    not the join. *)
Lemma returns_text_counterexample :
  Spec.stated_returns_text (Some (ResultsString "")) = "" /\
  Extension.returns_text (Some (ResultsString "")) = "void" /\
  Extension.returns_text (Some (ResultsString "")) <>
    Spec.stated_returns_text (Some (ResultsString "")) /\
  Spec.stated_returns_text (Some (ResultsArray [])) = "" /\
  Revision.returns_text (Some (ResultsArray [])) = "void" /\
  Revision.returns_text (Some (ResultsArray [])) <>
    Spec.stated_returns_text (Some (ResultsArray [])).
Proof. repeat split; discriminate. Qed.

(** C5 (amended). For every record, in both revisions, the return-type text
    of the formatted documentation is the elements of results joined with
    [" | "] when results is a non-empty sequence, results itself when it is a
    single non-empty string, and the literal [void] when results is absent.
    On the two remaining values the revisions differ: for the empty string
    [src/extension.ts] has [void] and the other revision the empty string
    itself; for the empty sequence [src/extension.ts] has the empty text of
    the join and the other revision [void].  So in both a record with results
    [Ped, int] has [Ped | int], one with [BOOL] has [BOOL] and one without
    results has [void]. *)
Theorem returns_text_rule :
  (forall l, l <> [] ->
     Extension.returns_text (Some (ResultsArray l)) = join " | " l /\
     Revision.returns_text (Some (ResultsArray l)) = join " | " l) /\
  (forall s, s <> "" ->
     Extension.returns_text (Some (ResultsString s)) = s /\
     Revision.returns_text (Some (ResultsString s)) = s) /\
  (Extension.returns_text None = "void" /\ Revision.returns_text None = "void") /\
  (Extension.returns_text (Some (ResultsString "")) = "void" /\
   Revision.returns_text (Some (ResultsString "")) = "") /\
  (Extension.returns_text (Some (ResultsArray [])) = "" /\
   Revision.returns_text (Some (ResultsArray [])) = "void") /\
  (forall r, r <> Some (ResultsString "") ->
     Extension.returns_text r = Spec.stated_returns_text r) /\
  (forall r, r <> Some (ResultsArray []) ->
     Revision.returns_text r = Spec.stated_returns_text r) /\
  (forall native, exists before after,
      Extension.docString native =
      before ++ "**Returns:** `" ++ Extension.returns_text (results native) ++ "`" ++ after) /\
  (forall native, exists before after,
      Revision.docString native =
      before ++ "**Returns**: `" ++ Revision.returns_text (results native) ++ "`" ++ after) /\
  (Extension.returns_text (Some (ResultsArray ["Ped"; "int"])) = "Ped | int" /\
   Revision.returns_text (Some (ResultsArray ["Ped"; "int"])) = "Ped | int") /\
  (Extension.returns_text (Some (ResultsString "BOOL")) = "BOOL" /\
   Revision.returns_text (Some (ResultsString "BOOL")) = "BOOL").
Proof.
  repeat match goal with |- _ /\ _ => split end; try reflexivity.
  - intros [|x l] Hl; [congruence|]. split; reflexivity.
  - intros [|c s] Hs; [congruence|]. split; reflexivity.
  - intros [[[|c s]|l]|] Hr; try reflexivity. congruence.
  - intros [[[|c s]|[|x l]]|] Hr; try reflexivity. congruence.
  - intros native.
    exists (nl ++ "**Description:** " ++ or_string (description native) "No description" ++
            nl ++ "**Parameters:** `" ++ Extension.paramList (params native) ++ "`" ++ nl).
    exists (nl ++ "**Module:** `" ++ interpolate (module native) ++ "`" ++
            nl ++ "**Hash:** `" ++ interpolate (hash native) ++ "`" ++
            nl ++ tab ++ tab ++ tab).
    unfold Extension.docString. now rewrite <- !append_assoc.
  - intros native.
    exists (nl ++ "**Description**: " ++ or_string (description native) "No description" ++
            "  " ++ nl ++ "**Parameters**: `" ++ Revision.params_text (params native) ++
            "`  " ++ nl).
    exists ("  " ++ nl ++ "**Module**: `" ++ interpolate (module native) ++ "`" ++
            nl ++ "**Hash**: `" ++ interpolate (hash native) ++ "`" ++
            nl ++ tab ++ tab ++ tab).
    unfold Revision.docString. rewrite !append_assoc. reflexivity.
Qed.

(** The other revision wraps a string in an array and tests the length: there
    a string is always used as it is, and an empty sequence gives [void]. *)
Lemma revision_returns_text :
  (forall s, Revision.returns_text (Some (ResultsString s)) = s) /\
  (forall l, l <> [] -> Revision.returns_text (Some (ResultsArray l)) = join " | " l) /\
  Revision.returns_text (Some (ResultsArray [])) = "void" /\
  Revision.returns_text None = "void".
Proof.
  repeat split.
  intros [|x l] Hl; [congruence|reflexivity].
Qed.

(** C9. In [src/extension.ts] a record whose results field is present and is
    the empty sequence has the empty string as its return-type text, not
    [void]: a sequence is always joined, and the [void] default is taken only
    when results is not a sequence and is absent or the empty (falsy) string. *)
Theorem returns_text_empty_sequence :
  Extension.returns_text (Some (ResultsArray [])) = "" /\
  Extension.returns_text (Some (ResultsArray [])) <> "void" /\
  (forall l, Extension.returns_text (Some (ResultsArray l)) = join " | " l) /\
  (forall r, (forall l, r <> Some (ResultsArray l)) ->
     (Extension.returns_text r = "void" /\ (r = None \/ r = Some (ResultsString ""))) \/
     (exists s, s <> "" /\ r = Some (ResultsString s) /\ Extension.returns_text r = s)).
Proof.
  repeat match goal with |- _ /\ _ => split end; try reflexivity.
  - discriminate.
  - intros [[[|c s]|l]|] Hr.
    + left. split; [reflexivity|now right].
    + right. exists (String c s). repeat split. discriminate.
    + now destruct (Hr l).
    + left. split; [reflexivity|now left].
Qed.

Section Snippet.

Import Extension.

Lemma snippet_step_at (pre suf : list FiveMNativeParam) (p : FiveMNativeParam)
    (snippet : SnippetString) :
  snippet_step (pre ++ p :: suf) snippet (List.length pre) =
  (snippet ++ Text (nl ++ tab) :: Placeholder (Spec.hint p) ::
     match suf with [] => [] | _ :: _ => [Text ","] end)%list.
Proof.
  unfold snippet_step.
  rewrite nth_error_app2 by lia. rewrite Nat.sub_diag. simpl.
  rewrite length_app. simpl.
  unfold appendText, appendPlaceholder, Spec.hint.
  destruct suf as [|q suf]; simpl.
  - replace (List.length pre <? List.length pre + 1 - 1)%nat with false
      by (symmetry; apply Nat.ltb_ge; lia).
    now rewrite <- app_assoc.
  - replace (List.length pre <? List.length pre + S (S (List.length suf)) - 1)%nat with true
      by (symmetry; apply Nat.ltb_lt; lia).
    now rewrite <- !app_assoc.
Qed.

(** The indexed loop appends the placeholder lines of the parameters it has
    not visited yet. *)
Lemma snippet_loop (suf pre : list FiveMNativeParam) (snippet : SnippetString) :
  fold_left (snippet_step (pre ++ suf)) (seq (List.length pre) (List.length suf)) snippet =
  (snippet ++ Spec.placeholder_lines suf)%list.
Proof.
  revert pre snippet. induction suf as [|p suf IH]; intros pre snippet; simpl.
  - now rewrite app_nil_r.
  - rewrite snippet_step_at.
    replace (pre ++ p :: suf)%list with ((pre ++ [p]) ++ suf)%list
      by (now rewrite <- app_assoc).
    replace (S (List.length pre)) with (List.length (pre ++ [p])%list)
      by (rewrite length_app; simpl; lia).
    rewrite IH. rewrite <- app_assoc. reflexivity.
Qed.

Lemma placeholders_lines (ps : list FiveMNativeParam) :
  Spec.placeholders (Spec.placeholder_lines ps) = map Spec.hint ps.
Proof.
  induction ps as [|p ps IH]; simpl; [reflexivity|].
  f_equal. destruct ps; [reflexivity|]. exact IH.
Qed.

Lemma placeholders_app (a b : SnippetString) :
  Spec.placeholders (a ++ b)%list = (Spec.placeholders a ++ Spec.placeholders b)%list.
Proof. apply flat_map_app. Qed.

End Snippet.

Section RevisionSnippet.

Import Revision.

Lemma revision_snippet_step_at (pre suf : list FiveMNativeParam) (p : FiveMNativeParam)
    (snippet : SnippetString) :
  snippet_step (pre ++ p :: suf) snippet (List.length pre) =
  (snippet ++ Placeholder (p_name p) ::
     match suf with [] => [] | _ :: _ => [Text ", "] end)%list.
Proof.
  unfold snippet_step.
  rewrite nth_error_app2 by lia. rewrite Nat.sub_diag. simpl.
  rewrite length_app. simpl.
  unfold appendText, appendPlaceholder.
  destruct suf as [|q suf]; simpl.
  - replace (List.length pre <? List.length pre + 1 - 1)%nat with false
      by (symmetry; apply Nat.ltb_ge; lia).
    reflexivity.
  - replace (List.length pre <? List.length pre + S (S (List.length suf)) - 1)%nat with true
      by (symmetry; apply Nat.ltb_lt; lia).
    now rewrite <- !app_assoc.
Qed.

Lemma revision_snippet_loop (suf pre : list FiveMNativeParam) (snippet : SnippetString) :
  fold_left (snippet_step (pre ++ suf)) (seq (List.length pre) (List.length suf)) snippet =
  (snippet ++ Derived.placeholder_row suf)%list.
Proof.
  revert pre snippet. induction suf as [|p suf IH]; intros pre snippet; simpl.
  - now rewrite app_nil_r.
  - rewrite revision_snippet_step_at.
    replace (pre ++ p :: suf)%list with ((pre ++ [p]) ++ suf)%list
      by (now rewrite <- app_assoc).
    replace (S (List.length pre)) with (List.length (pre ++ [p])%list)
      by (rewrite length_app; simpl; lia).
    rewrite IH. rewrite <- app_assoc. reflexivity.
Qed.

Lemma placeholders_row (ps : list FiveMNativeParam) :
  Spec.placeholders (Derived.placeholder_row ps) = map p_name ps.
Proof.
  induction ps as [|p ps IH]; simpl; [reflexivity|].
  f_equal. destruct ps; [reflexivity|]. exact IH.
Qed.

End RevisionSnippet.

(** The claim of C6 as stated fails on the other revision: there a record
    without parameters has no insert template at all, and the template of a
    record with a parameter begins with the name as it is, not with the display
    label, holds the bare parameter name, not the name with its mapped type,
    and has no statement terminator. *)
Lemma insertText_counterexample :
  Spec.parameters Sample2.timer_native = [] /\
  insertText (Revision.completionItem Sample2.timer_native) = None /\
  Extension.toPascalCase (name Sample2.music_native) = "TriggerMusicEvent" /\
  map Spec.hint (Spec.parameters Sample2.music_native) = ["eventName: string"] /\
  insertText (Revision.completionItem Sample2.music_native) =
    Some [SnippetValue "TRIGGER_MUSIC_EVENT("; Placeholder "eventName"; Text ")"] /\
  insertText (Revision.completionItem Sample2.music_native) <>
  insertText (Extension.completionItem Sample2.music_native).
Proof. repeat split. discriminate. Qed.

(** C6 (amended). In [src/extension.ts], for every record the insert
    template begins with the display label, [toPascalCase] of the record's
    name, followed by an opening parenthesis.  With no parameters the
    parenthesis is closed at once.  With one or more parameters every
    parameter is a placeholder of its own, whose text is the parameter name
    with its mapped type as a hint, each on a line of its own and separated by
    commas, and a closing parenthesis follows.  A statement terminator ends the
    template.  In the other revision the label is the name as it is; a record
    without parameters has no insert template; with one or more parameters the
    template is the name and an opening parenthesis, one placeholder per
    parameter holding the bare parameter name, a comma and a blank between
    them on one line, and the closing parenthesis, with no terminator. *)
Theorem insertText_template (native : FiveMNative) :
  (label (Extension.completionItem native) = Extension.toPascalCase (name native) /\
   exists body,
     insertText (Extension.completionItem native) =
       Some (SnippetValue (Extension.toPascalCase (name native) ++ "(") :: body ++ [Text ";"])%list /\
     (Spec.parameters native = [] -> body = [Text ")"]) /\
     (Spec.parameters native <> [] ->
        body = (Spec.placeholder_lines (Spec.parameters native) ++ [Text (nl ++ ")")])%list) /\
     Spec.placeholders body = map Spec.hint (Spec.parameters native)) /\
  (label (Revision.completionItem native) = name native /\
   (Spec.parameters native = [] -> insertText (Revision.completionItem native) = None) /\
   (Spec.parameters native <> [] ->
      insertText (Revision.completionItem native) =
        Some (SnippetValue (name native ++ "(") ::
              Derived.placeholder_row (Spec.parameters native) ++ [Text ")"])%list) /\
   Spec.placeholders
     (match insertText (Revision.completionItem native) with
      | Some snippet => snippet
      | None => []
      end) = map p_name (Spec.parameters native)).
Proof.
  split.
  - split; [reflexivity|].
    unfold Extension.completionItem, Extension.snippet_of, Spec.parameters. simpl.
    destruct (params native) as [[|p ps]|].
    + exists [Text ")"]. repeat split; congruence.
    + exists (Spec.placeholder_lines (p :: ps) ++ [Text (nl ++ ")")])%list.
      split; [|split; [discriminate|split; [reflexivity|]]].
      * pose proof (snippet_loop (p :: ps) []) as Hloop. simpl app in Hloop.
        simpl List.length in Hloop. rewrite Hloop.
        unfold appendText, new_SnippetString. simpl. now rewrite <- !app_assoc.
      * rewrite placeholders_app, placeholders_lines. simpl. now rewrite app_nil_r.
    + exists [Text ")"]. repeat split; congruence.
  - split; [reflexivity|].
    unfold Revision.completionItem, Spec.parameters. cbn [insertText].
    destruct (params native) as [[|p ps]|].
    + repeat split; congruence.
    + pose proof (revision_snippet_loop (p :: ps) []) as Hloop.
      change ([] ++ p :: ps)%list with (p :: ps) in Hloop.
      change (List.length (@nil FiveMNativeParam)) with 0 in Hloop.
      rewrite Hloop. unfold appendText, new_SnippetString.
      split; [discriminate|]. split; [intros _; now rewrite <- app_assoc|].
      rewrite !placeholders_app, placeholders_row.
      change (Spec.placeholders [SnippetValue (name native ++ "(")]) with (@nil string).
      change (Spec.placeholders [Text ")"]) with (@nil string).
      now rewrite app_nil_r.
    + repeat split; congruence.
Qed.

(** ** The catalog load at startup *)




(** A file that cannot be read is handled by the same [catch]. *)
Lemma activate_unreadable_file (rt : Runtime) (extensionPath e : string) :
  existsSync rt (Spec.nativesFile rt extensionPath) = true ->
  readFileSync rt (Spec.nativesFile rt extensionPath) = Thrown e ->
  Host.run (Extension.activate rt extensionPath) =
  (Returned tt, showErrorMessage "Failed to parse natives.json" :: Spec.registrations []).
Proof.
  unfold Spec.nativesFile, Host.run, Extension.activate,
    Host.bind, Host.try_catch, Host.lift, Host.call, Host.ret.
  intros Hexists Hread. now rewrite Hexists, Hread.
Qed.

(** A well-formed file loads the normalized catalog into both providers. *)
Lemma activate_loaded (rt : Runtime) (extensionPath rawData : string) (parsed : RawCatalog) :
  existsSync rt (Spec.nativesFile rt extensionPath) = true ->
  readFileSync rt (Spec.nativesFile rt extensionPath) = Returned rawData ->
  JSON_parse rt rawData = Returned parsed ->
  Host.run (Extension.activate rt extensionPath) =
  (Returned tt, Spec.registrations (parseNatives parsed)).
Proof.
  unfold Spec.nativesFile, Host.run, Extension.activate,
    Host.bind, Host.try_catch, Host.lift, Host.call, Host.ret.
  intros Hexists Hread Hparse. now rewrite Hexists, Hread, Hparse.
Qed.

(** The other revision has no [try] around the load: there the exception of
    [JSON.parse] leaves [activate], before anything is registered. *)
Lemma revision_activate_propagates (rt : Runtime) (extensionPath rawData e : string) :
  existsSync rt (Spec.nativesFile rt extensionPath) = true ->
  readFileSync rt (Spec.nativesFile rt extensionPath) = Returned rawData ->
  JSON_parse rt rawData = Thrown e ->
  Host.run (Revision.activate rt extensionPath) = (Thrown e, []).
Proof.
  unfold Spec.nativesFile, Host.run, Revision.activate,
    Host.bind, Host.lift, Host.call, Host.ret.
  intros Hexists Hread Hparse. now rewrite Hexists, Hread, Hparse.
Qed.

(** ** Exact-name lookup and the definition provider *)

Section Lookup.

Import Revision.

Lemma findByName_spec (natives : list FiveMNative) (word : string) :
  match findByName natives word with
  | Some x =>
      exists before after,
        natives = (before ++ x :: after)%list /\
        Spec.matches word x /\
        Forall (fun n => ~ Spec.matches word n) before
  | None => Forall (fun n => ~ Spec.matches word n) natives
  end.
Proof.
  unfold findByName, Spec.matches.
  induction natives as [|n natives IH]; simpl; [constructor|].
  destruct (String.eqb_spec (toLowerCase (name n)) (toLowerCase word)) as [E|E].
  - exists [], natives. repeat split; [exact E|constructor].
  - destruct (find _ natives) as [x|].
    + destruct IH as (before & after & -> & Hx & Hbefore).
      exists (n :: before), after. repeat split; [exact Hx|now constructor].
    + now constructor.
Qed.

Lemma findByName_skip (before rest : list FiveMNative) (word : string) :
  Forall (fun n => ~ Spec.matches word n) before ->
  findByName (before ++ rest)%list word = findByName rest word.
Proof.
  unfold findByName, Spec.matches.
  induction 1 as [|n before Hn _ IH]; simpl; [reflexivity|].
  destruct (String.eqb_spec (toLowerCase (name n)) (toLowerCase word)); [contradiction|].
  exact IH.
Qed.

Lemma findByName_head (x : FiveMNative) (rest : list FiveMNative) (word : string) :
  Spec.matches word x -> findByName (x :: rest) word = Some x.
Proof.
  unfold findByName, Spec.matches. simpl. intros E.
  now rewrite E, String.eqb_refl.
Qed.

End Lookup.

Lemma enumerate_singleton {V : Type} (e : string * V) : JsObject.enumerate [e] = [e].
Proof.
  unfold JsObject.enumerate, JsObject.string_entries, JsObject.is_index. simpl.
  destruct (JsObject.array_index (fst e)); reflexivity.
Qed.

(** The claim of C8 as stated fails on a document whose module keys are array
    indices: module [1], which names [Foo], comes first in the document,
    module [0], which names [FOO], comes first in the normalized list, and the
    query [foo] resolves to the record of module [0]. *)
Lemma findByName_document_order_counterexample :
  Spec.wf_catalog Sample2.indexed_foo_catalog /\
  map module (Spec.normalize_document_order Sample2.indexed_foo_catalog) =
    [Some "1"; Some "0"] /\
  map name (Spec.normalize_document_order Sample2.indexed_foo_catalog) = ["Foo"; "FOO"] /\
  option_map module
    (Revision.findByName (parseNatives Sample2.indexed_foo_catalog) "foo") = Some (Some "0") /\
  Revision.findByName (parseNatives Sample2.indexed_foo_catalog) "foo" <>
  Revision.findByName (Spec.normalize_document_order Sample2.indexed_foo_catalog) "foo".
Proof.
  split; [solve_wf_catalog|].
  repeat split. vm_compute. discriminate.
Qed.

(** C8 (amended). For every record list and query word the lookup compares
    the names with the word case-insensitively, in the order of the list: it
    returns the first record whose name matches, and not-found when none does;
    words with the same lowercased text find the same record.  Of two records
    whose names both match, the one that comes first in the list wins.  On the
    normalized list of a document this is the record that comes first in the
    document whenever no module key and no entry key is an array index: for
    two modules, with keys that are not array indices, that name [Foo] and
    [FOO], the query [foo] gives the record of the module that comes first in
    the document. *)
Theorem findByName_first_match :
  (forall natives word,
      match Revision.findByName natives word with
      | Some x =>
          exists before after,
            natives = (before ++ x :: after)%list /\
            Spec.matches word x /\
            Forall (fun n => ~ Spec.matches word n) before
      | None => Forall (fun n => ~ Spec.matches word n) natives
      end) /\
  (forall before x between y after word,
      Forall (fun n => ~ Spec.matches word n) before ->
      Spec.matches word x -> Spec.matches word y ->
      Revision.findByName (before ++ x :: between ++ y :: after)%list word = Some x) /\
  (forall natives word word',
      toLowerCase word = toLowerCase word' ->
      Revision.findByName natives word = Revision.findByName natives word') /\
  (forall raw word,
      Spec.wf_catalog raw -> Spec.no_index_keys raw ->
      Revision.findByName (parseNatives raw) word =
      Revision.findByName (Spec.normalize_document_order raw) word) /\
  (forall m1 h1 d1 n1 m2 h2 d2 n2 word,
      m1 <> m2 ->
      JsObject.is_index m1 = false -> JsObject.is_index m2 = false ->
      def_name d1 = Some n1 -> n1 <> "" -> def_name d2 = Some n2 -> n2 <> "" ->
      toLowerCase n1 = toLowerCase word -> toLowerCase n2 = toLowerCase word ->
      Revision.findByName
        (parseNatives [(m1, [(h1, Some d1)]); (m2, [(h2, Some d2)])]) word =
      Some (Spec.record_of m1 h1 d1 n1)) /\
  map name (parseNatives Sample.foo_catalog) = ["Foo"; "FOO"] /\
  option_map module (Revision.findByName (parseNatives Sample.foo_catalog) "foo") =
    Some (Some "ALPHA").
Proof.
  split; [exact findByName_spec|].
  split; [|split; [|split; [|split; [|split; reflexivity]]]].
  - intros before x between y after word Hbefore Hx _.
    rewrite findByName_skip by assumption. now apply findByName_head.
  - intros natives word word' E. unfold Revision.findByName. now rewrite E.
  - intros raw word Hwf Hno.
    now rewrite (parseNatives_enumeration raw Hwf), (normalize_no_index raw Hno).
  - intros m1 h1 d1 n1 m2 h2 d2 n2 word Hm Hi1 Hi2 Hn1 Hne1 Hn2 Hne2 Hw1 Hw2.
    assert (Hwf : Spec.wf_catalog [(m1, [(h1, Some d1)]); (m2, [(h2, Some d2)])]).
    { split.
      - unfold JsObject.wf. simpl. repeat constructor; simpl; intuition congruence.
      - intros m mo [E|[E|[]]]; injection E as <- <-;
          unfold JsObject.wf; simpl; repeat constructor; simpl; tauto. }
    rewrite (parseNatives_enumeration _ Hwf).
    assert (Hno : Forall (fun mo : string * RawModule => JsObject.is_index (fst mo) = false)
                    [(m1, [(h1, Some d1)]); (m2, [(h2, Some d2)])])
      by (repeat constructor; assumption).
    unfold Spec.normalize_enumeration_order, Spec.normalize_in.
    rewrite (enumerate_no_index _ Hno).
    cbn [flat_map fst snd]. rewrite !enumerate_singleton. cbn [flat_map fst snd app].
    unfold Spec.records_of_entry, Spec.named. simpl. rewrite Hn1, Hn2.
    destruct n1 as [|c1 r1]; [congruence|]. destruct n2 as [|c2 r2]; [congruence|].
    cbn [app]. apply findByName_head. exact Hw1.
Qed.

Lemma findByName_first_match_witness :
  Spec.wf_catalog Sample.foo_catalog /\ Spec.no_index_keys Sample.foo_catalog /\
  Revision.findByName (parseNatives Sample.foo_catalog) "foo" =
  Revision.findByName (Spec.normalize_document_order Sample.foo_catalog) "foo".
Proof.
  assert (Hwf : Spec.wf_catalog Sample.foo_catalog) by solve_wf_catalog.
  assert (Hno : Spec.no_index_keys Sample.foo_catalog)
    by (unfold Spec.no_index_keys; simpl; repeat constructor).
  split; [exact Hwf|split; [exact Hno|]].
  exact (proj1 (proj2 (proj2 (proj2 findByName_first_match))) Sample.foo_catalog "foo" Hwf Hno).
Defined.

(** C10. On a match the definition provider opens the documentation page
    whose address is built from the record's hash without its first two
    characters, whatever they are, and from the empty string when the hash is
    absent; the provider always returns [undefined], never a location. *)
Theorem provideDefinition_opens_docs :
  (forall natives word x,
      Revision.findByName natives word = Some x ->
      Host.run (Revision.provideDefinition natives (Some word)) =
      (Returned None, [openExternal (Revision.docUrl x)])) /\
  (forall x c1 c2 rest,
      hash x = Some (String c1 (String c2 rest)) ->
      Revision.docUrl x = Spec.docs_prefix ++ rest) /\
  (forall x h,
      hash x = Some h ->
      Revision.docUrl x = Spec.docs_prefix ++ substring 2 (String.length h - 2) h) /\
  (forall x, hash x = None -> Revision.docUrl x = Spec.docs_prefix ++ "") /\
  (forall natives wordAtPosition log,
      fst (Revision.provideDefinition natives wordAtPosition log) = Returned None).
Proof.
  unfold Host.run, Revision.provideDefinition, Revision.docUrl, Spec.docs_prefix,
    Host.bind, Host.call, Host.ret.
  repeat match goal with |- _ /\ _ => split end.
  - intros natives word x E. now rewrite E.
  - intros x c1 c2 rest E. rewrite E. simpl. now destruct rest.
  - intros x h E. rewrite E. simpl.
    destruct h as [|c1 [|c2 rest]]; try reflexivity. simpl.
    rewrite Nat.sub_0_r.
    assert (Hsub : forall s, substring 0 (String.length s) s = s).
    { induction s as [|c s IH]; simpl; congruence. }
    rewrite Hsub. now destruct rest.
  - intros x E. now rewrite E.
  - intros natives [word|] log; [|reflexivity].
    destruct (Revision.findByName natives word); reflexivity.
Qed.

(** ** End to end *)

(** The document of the design document's example gives one suggestion, with
    the label [TriggerMusicEvent], one placeholder [eventName: string] and the
    return type, module and hash in its documentation. *)
Lemma cfx_catalog_suggestion :
  exists item doc_head doc_mid doc_tail,
    Extension.provideCompletionItems (parseNatives Sample.cfx_catalog) = [item] /\
    label item = "TriggerMusicEvent" /\
    option_map Spec.placeholders (insertText item) = Some ["eventName: string"] /\
    documentation item = doc_head ++ "BOOL" ++ doc_mid ++ "CFX" ++ doc_tail ++ "0x1`" ++ nl ++ tab ++ tab ++ tab.
Proof.
  eexists. exists (nl ++ "**Description:** Starts a music event." ++ nl ++
                   "**Parameters:** `string eventName`" ++ nl ++ "**Returns:** `").
  exists ("`" ++ nl ++ "**Module:** `"). exists ("`" ++ nl ++ "**Hash:** `").
  repeat split.
Qed.


(** * Further properties of the sources *)

(** ** The casing transform *)

Section CasingMore.

Import Extension.

Lemma upper_char_not_lower (c : ascii) : is_lower (upper_char c) = false.
Proof. destruct c as [[] [] [] [] [] [] [] []]; reflexivity. Qed.

Lemma lower_char_underscore (c : ascii) : lower_char c = "_"%char -> c = "_"%char.
Proof. destruct c as [[] [] [] [] [] [] [] []]; simpl; intros E; try discriminate E; reflexivity. Qed.

Lemma toLowerCase_app (a b : string) :
  toLowerCase (a ++ b) = toLowerCase a ++ toLowerCase b.
Proof. induction a as [|c a IH]; simpl; congruence. Qed.

Lemma toLowerCase_length (s : string) : String.length (toLowerCase s) = String.length s.
Proof. induction s as [|c s IH]; simpl; congruence. Qed.

Lemma toLowerCase_chars (s : string) : chars (toLowerCase s) = map lower_char (chars s).
Proof. induction s as [|c s IH]; simpl; congruence. Qed.

Lemma join_empty_cons (x : string) (l : list string) : join "" (x :: l) = x ++ join "" l.
Proof. destruct l; simpl; [now rewrite append_empty_r|reflexivity]. Qed.

Lemma join_empty_app (a b : list string) : join "" (a ++ b)%list = join "" a ++ join "" b.
Proof.
  induction a as [|x a IH]; [reflexivity|].
  change ((x :: a) ++ b)%list with (x :: (a ++ b))%list.
  now rewrite !join_empty_cons, IH, append_assoc.
Qed.

Lemma split_app_sep (sep : ascii) (a b : string) :
  split sep (a ++ String sep b) = (split sep a ++ split sep b)%list.
Proof.
  induction a as [|c a IH]; simpl.
  - now rewrite Ascii.eqb_refl.
  - destruct (Ascii.eqb c sep); rewrite IH; [reflexivity|].
    pose proof (split_not_nil sep a) as Hne.
    destruct (split sep a); [congruence|reflexivity].
Qed.

Lemma join_empty_split (sep : ascii) (s : string) :
  join "" (split sep s) = Derived.remove_char sep s.
Proof.
  induction s as [|c s IH]; simpl; [reflexivity|].
  destruct (Ascii.eqb c sep).
  - now rewrite join_empty_cons.
  - pose proof (split_not_nil sep s) as Hne.
    destruct (split sep s) as [|h t]; [congruence|].
    rewrite join_empty_cons in *. simpl. now rewrite IH.
Qed.

Lemma remove_char_free (x : ascii) (s : string) : ~ In x (chars (Derived.remove_char x s)).
Proof.
  induction s as [|c s IH]; simpl; [tauto|].
  destruct (Ascii.eqb_spec c x); [exact IH|].
  simpl. intros [E|Hin]; [congruence|contradiction].
Qed.

Lemma lower_capitalize_chunk (chunk : string) :
  toLowerCase (Spec.capitalize_chunk chunk) = toLowerCase chunk.
Proof.
  destruct chunk as [|c r]; simpl; [reflexivity|].
  now rewrite lower_upper_char, toLowerCase_idem.
Qed.

Lemma lower_join_capitalize (chunks : list string) :
  toLowerCase (join "" (map Spec.capitalize_chunk chunks)) = toLowerCase (join "" chunks).
Proof.
  induction chunks as [|x l IH]; [reflexivity|].
  change (map Spec.capitalize_chunk (x :: l)) with
    (Spec.capitalize_chunk x :: map Spec.capitalize_chunk l).
  now rewrite !join_empty_cons, !toLowerCase_app, IH, lower_capitalize_chunk.
Qed.

(** On class characters only, empty input included, the transform is the
    chunk rule. *)
Lemma toPascalCase_chunks (s : string) :
  all_in_class s = true ->
  toPascalCase s = join "" (map Spec.capitalize_chunk (split "_" s)).
Proof.
  intros Hs. unfold toPascalCase. destruct s as [|c r]; [reflexivity|].
  change (test_upper_snake (String c r)) with (all_in_class (String c r)).
  rewrite Hs. f_equal. apply map_ext. exact chunk_rule.
Qed.

Lemma toPascalCase_other (s : string) :
  test_upper_snake s = false -> toPascalCase s = Spec.capitalize_first s.
Proof. intros E. unfold toPascalCase. rewrite E. apply first_rule. Qed.

Lemma toPascalCase_fold_snake (s : string) :
  all_in_class s = true ->
  toLowerCase (toPascalCase s) = toLowerCase (Derived.remove_char "_" s).
Proof.
  intros Hs. rewrite toPascalCase_chunks by assumption.
  now rewrite lower_join_capitalize, join_empty_split.
Qed.

Lemma UpperSnake_all_in_class (s : string) : Spec.UpperSnake s -> all_in_class s = true.
Proof. intros [_ H]. now apply all_in_class_Forall. Qed.

Lemma join_capitalize_head (chunks : list string) (c : ascii) (r : string) :
  join "" (map Spec.capitalize_chunk chunks) = String c r -> is_lower c = false.
Proof.
  induction chunks as [|x l IH]; [discriminate|].
  change (map Spec.capitalize_chunk (x :: l)) with
    (Spec.capitalize_chunk x :: map Spec.capitalize_chunk l).
  rewrite join_empty_cons. destruct x as [|c0 r0]; simpl.
  - exact IH.
  - intros E. injection E as <- _. apply upper_char_not_lower.
Qed.

End CasingMore.

Lemma display_head (s : string) (c : ascii) (r : string) :
  Extension.toPascalCase s = String c r -> is_lower c = false.
Proof.
  destruct (Extension.test_upper_snake s) eqn:E.
  - rewrite toPascalCase_chunks.
    + apply join_capitalize_head.
    + destruct s; [discriminate|exact E].
  - rewrite toPascalCase_other by assumption.
    destruct s as [|c0 r0]; simpl; [discriminate|].
    intros H. injection H as <- _. apply upper_char_not_lower.
Qed.

Lemma remove_char_empty_class (s : string) :
  Derived.remove_char "_" s = "" -> Extension.all_in_class s = true.
Proof.
  induction s as [|c s IH]; simpl; [reflexivity|].
  destruct (Ascii.eqb_spec c "_") as [->|Hc]; [|discriminate].
  intros E. now rewrite IH.
Qed.

(** X1. Whatever the name, its display name never begins with a lowercase
    letter, and it is empty only when the name has nothing but underscores
    (or nothing at all). *)
Theorem toPascalCase_head_not_lower :
  (forall s c r, Extension.toPascalCase s = String c r -> is_lower c = false) /\
  (forall s, Extension.toPascalCase s = "" <-> Derived.remove_char "_" s = "").
Proof.
  split; [exact display_head|].
  intros s. destruct (Extension.all_in_class s) eqn:Hs.
  - pose proof (toPascalCase_fold_snake s Hs) as Hfold.
    apply (f_equal String.length) in Hfold.
    rewrite !toLowerCase_length in Hfold.
    split; intros E; rewrite E in Hfold; simpl in Hfold.
    + destruct (Derived.remove_char "_" s); [reflexivity|discriminate].
    + destruct (Extension.toPascalCase s); [reflexivity|discriminate].
  - split; intros E.
    + rewrite toPascalCase_other in E.
      * destruct s; [reflexivity|discriminate].
      * destruct s as [|c r]; [reflexivity|exact Hs].
    + apply remove_char_empty_class in E. congruence.
Qed.

(** X2. The display name of an upper-snake name has no underscore and is as
    long as the name without its underscores; the display name of any other
    name of ASCII text is as long as the name. *)
Theorem toPascalCase_shape :
  (forall s, Spec.UpperSnake s ->
     ~ In "_"%char (chars (Extension.toPascalCase s)) /\
     String.length (Extension.toPascalCase s) =
     String.length (Derived.remove_char "_" s)) /\
  (forall s, ~ Spec.UpperSnake s -> Spec.AsciiText s ->
     String.length (Extension.toPascalCase s) = String.length s).
Proof.
  split.
  - intros s Hs. apply UpperSnake_all_in_class in Hs.
    pose proof (toPascalCase_fold_snake s Hs) as Hfold.
    split.
    + intros Hin.
      apply (remove_char_free "_" s).
      assert (Hl : In "_"%char (chars (toLowerCase (Extension.toPascalCase s)))).
      { rewrite toLowerCase_chars. apply in_map_iff. exists "_"%char. now split. }
      rewrite Hfold, toLowerCase_chars in Hl.
      apply in_map_iff in Hl. destruct Hl as (c & Hc & Hin').
      apply lower_char_underscore in Hc. now subst c.
    + rewrite <- (toLowerCase_length (Extension.toPascalCase s)), Hfold.
      apply toLowerCase_length.
  - intros s Hs _. rewrite toPascalCase_other.
    + now destruct s.
    + destruct (Extension.test_upper_snake s) eqn:E; [|reflexivity].
      exfalso. apply Hs. now apply test_upper_snake_spec.
Qed.

Lemma toPascalCase_shape_witness :
  ~ Spec.UpperSnake "triggerEvent" /\ Spec.AsciiText "triggerEvent" /\
  String.length (Extension.toPascalCase "triggerEvent") = String.length "triggerEvent".
Proof.
  assert (Hs : ~ Spec.UpperSnake "triggerEvent").
  { intros H. apply test_upper_snake_spec in H. discriminate H. }
  assert (Ht : Spec.AsciiText "triggerEvent").
  { unfold Spec.AsciiText. simpl.
    repeat (constructor; [apply Nat.ltb_lt; reflexivity|]). constructor. }
  split; [exact Hs|split; [exact Ht|]].
  exact (proj2 toPascalCase_shape "triggerEvent" Hs Ht).
Defined.

(** X3. Up to case, the display name is the name without its underscores when
    the name is upper-snake, and the name itself when it is any other name of
    ASCII text: on such names the transform changes nothing but case and
    underscores. *)
Theorem toPascalCase_case_fold :
  (forall s, Spec.UpperSnake s ->
     toLowerCase (Extension.toPascalCase s) = toLowerCase (Derived.remove_char "_" s)) /\
  (forall s, ~ Spec.UpperSnake s -> Spec.AsciiText s ->
     toLowerCase (Extension.toPascalCase s) = toLowerCase s).
Proof.
  split.
  - intros s Hs. apply toPascalCase_fold_snake. now apply UpperSnake_all_in_class.
  - intros s Hs _. rewrite toPascalCase_other.
    + destruct s as [|c r]; simpl; [reflexivity|]. now rewrite lower_upper_char.
    + destruct (Extension.test_upper_snake s) eqn:E; [|reflexivity].
      exfalso. apply Hs. now apply test_upper_snake_spec.
Qed.

Lemma toPascalCase_case_fold_witness :
  ~ Spec.UpperSnake "triggerEvent" /\ Spec.AsciiText "triggerEvent" /\
  toLowerCase (Extension.toPascalCase "triggerEvent") = toLowerCase "triggerEvent".
Proof.
  assert (Hs : ~ Spec.UpperSnake "triggerEvent").
  { intros H. apply test_upper_snake_spec in H. discriminate H. }
  assert (Ht : Spec.AsciiText "triggerEvent").
  { unfold Spec.AsciiText. simpl.
    repeat (constructor; [apply Nat.ltb_lt; reflexivity|]). constructor. }
  split; [exact Hs|split; [exact Ht|]].
  exact (proj2 toPascalCase_case_fold "triggerEvent" Hs Ht).
Defined.

(** X4. On names made of uppercase letters, digits and underscores the
    transform distributes over an underscore: the display name of two names
    joined by an underscore is the two display names put together. *)
Theorem toPascalCase_underscore (s t : string) :
  Derived.ClassOnly s -> Derived.ClassOnly t ->
  Extension.toPascalCase (s ++ "_" ++ t) =
  Extension.toPascalCase s ++ Extension.toPascalCase t.
Proof.
  intros Hs Ht.
  apply all_in_class_Forall in Hs. apply all_in_class_Forall in Ht.
  assert (Hst : Extension.all_in_class (s ++ "_" ++ t) = true).
  { clear - Hs Ht. induction s as [|c s IH]; simpl in *.
    - exact Ht.
    - apply andb_true_iff in Hs. destruct Hs as [Hc Hs].
      now rewrite Hc, IH. }
  rewrite !toPascalCase_chunks by assumption.
  change (s ++ "_" ++ t) with (s ++ String "_" t).
  now rewrite split_app_sep, map_app, join_empty_app.
Qed.

Lemma toPascalCase_underscore_witness :
  Extension.toPascalCase ("TRIGGER_MUSIC" ++ "_" ++ "EVENT") =
  Extension.toPascalCase "TRIGGER_MUSIC" ++ Extension.toPascalCase "EVENT".
Proof.
  apply toPascalCase_underscore; unfold Derived.ClassOnly; simpl;
    repeat (constructor; [vm_compute; auto|]); constructor.
Defined.

(** ** The type mapper *)

Section MapTypeMore.

Import Extension.

Lemma mapType_cases (t : string) :
  (toLowerCase t = "char*" /\ mapType t = "string") \/
  ((toLowerCase t = "float" \/ toLowerCase t = "int") /\ mapType t = "number") \/
  (toLowerCase t = "bool" /\ mapType t = "boolean") \/
  (~ In (toLowerCase t) Spec.mapped_names /\ mapType t = toLowerCase t).
Proof.
  unfold mapType, Spec.mapped_names.
  destruct (String.eqb_spec (toLowerCase t) "char*") as [E1|N1]; [now left|].
  destruct (String.eqb_spec (toLowerCase t) "float") as [E2|N2];
    [right; left; simpl; tauto|].
  destruct (String.eqb_spec (toLowerCase t) "int") as [E3|N3];
    [right; left; simpl; tauto|].
  destruct (String.eqb_spec (toLowerCase t) "bool") as [E4|N4];
    [right; right; left; simpl; tauto|].
  right; right; right. split; [|reflexivity].
  simpl. intros [E|[E|[E|[E|[]]]]]; congruence.
Qed.

End MapTypeMore.

(** X5. Mapping a type name twice is the same as mapping it once, and a
    mapped name is already in lower case. *)
Theorem mapType_idempotent (t : string) :
  Extension.mapType (Extension.mapType t) = Extension.mapType t /\
  toLowerCase (Extension.mapType t) = Extension.mapType t.
Proof.
  destruct (mapType_cases t) as [[_ E]|[[_ E]|[[_ E]|[Hn E]]]]; rewrite E;
    try (split; reflexivity).
  split; [|apply toLowerCase_idem].
  unfold Extension.mapType. rewrite !toLowerCase_idem.
  fold (Extension.mapType t). exact E.
Qed.

(** X6. No source type name of the table ever comes out of the mapper:
    the result is never [char*], [float], [int] or [bool]. *)
Theorem mapType_never_source_name (t : string) :
  ~ In (Extension.mapType t) Spec.mapped_names.
Proof.
  destruct (mapType_cases t) as [[_ E]|[[_ E]|[[_ E]|[Hn E]]]]; rewrite E;
    try (simpl; intros [H|[H|[H|[H|[]]]]]; discriminate H).
  exact Hn.
Qed.

Lemma mapType_never_source_name_witness :
  ~ In (Extension.mapType "FLOAT") Spec.mapped_names.
Proof. exact (mapType_never_source_name "FLOAT"). Defined.

(** ** Natives and events in one suggestion list *)

(** X7. A suggestion for a native never carries the label of one of the five
    event suggestions: the event labels begin with a lowercase letter, the
    display names never do. *)
Theorem native_labels_apart_from_events (natives : list FiveMNative)
    (item event : CompletionItem) :
  In item (Extension.provideCompletionItems natives) ->
  In event Events.provideCompletionItems ->
  label item <> label event.
Proof.
  intros Hitem Hevent Heq.
  unfold Extension.provideCompletionItems in Hitem.
  apply in_map_iff in Hitem. destruct Hitem as (native & <- & _).
  simpl in Heq.
  assert (Hhead : exists c r, label event = String c r /\ is_lower c = true).
  { simpl in Hevent.
    repeat (destruct Hevent as [<-|Hevent]; [eexists; eexists; split; reflexivity|]).
    contradiction. }
  destruct Hhead as (c & r & Hl & Hc).
  rewrite Hl in Heq. apply display_head in Heq. congruence.
Qed.

Lemma native_labels_apart_from_events_witness :
  label (Extension.completionItem (mkNative "triggerEvent" None None None None None)) <>
  label (Events.eventItem "triggerEvent" "Trigger a local event"
           ("**triggerEvent(eventName, ...args)**" ++ nl ++ nl ++
            "Triggers an event on the local side (client or server).")
           "triggerEvent('${1:eventName}', ${2:...args});").
Proof.
  apply (native_labels_apart_from_events
           [mkNative "triggerEvent" None None None None None]).
  - simpl. now left.
  - simpl. tauto.
Defined.

(** ** Normalization, further *)

Section NormalizationMore.

Import JsObject.

Lemma fold_left_Forall {A B : Type} (P : B -> Prop) (f : list B -> A -> list B) :
  (forall acc x, Forall P acc -> Forall P (f acc x)) ->
  forall l acc, Forall P acc -> Forall P (fold_left f l acc).
Proof.
  intros Hf. induction l as [|x l IH]; intros acc Hacc; simpl; [exact Hacc|].
  apply IH, Hf, Hacc.
Qed.

Lemma flat_map_perm_ext {A B : Type} (f g : A -> list B) (l : list A) :
  (forall x, Permutation (f x) (g x)) ->
  Permutation (flat_map f l) (flat_map g l).
Proof.
  intros Hfg. induction l as [|x l IH]; simpl; [constructor|].
  now apply Permutation_app.
Qed.

Lemma flat_map_perm {A B : Type} (f : A -> list B) (l l' : list A) :
  Permutation l l' -> Permutation (flat_map f l) (flat_map f l').
Proof.
  induction 1 as [|x l l' _ IH|x y l|l l' l'' _ IH1 _ IH2]; simpl.
  - constructor.
  - now apply Permutation_app_head.
  - rewrite !app_assoc. apply Permutation_app_tail, Permutation_app_comm.
  - now transitivity (flat_map f l').
Qed.

Lemma normalize_perm (raw : RawCatalog) :
  Permutation (Spec.normalize_enumeration_order raw) (Spec.normalize_document_order raw).
Proof.
  unfold Spec.normalize_enumeration_order, Spec.normalize_document_order, Spec.normalize_in.
  transitivity
    (flat_map (fun mo => flat_map (Spec.records_of_entry (fst mo)) (snd mo)) (enumerate raw)).
  - apply flat_map_perm_ext. intros mo. apply flat_map_perm, enumerate_perm.
  - apply flat_map_perm, enumerate_perm.
Qed.

Lemma module_keys_In (m : string) (mo : RawModule) (k : option string * option string) :
  In k (map Derived.record_key (flat_map (Spec.records_of_entry m) mo)) ->
  exists h, k = (Some m, Some h) /\ In h (map fst mo).
Proof.
  induction mo as [|e mo IH]; simpl; [contradiction|].
  rewrite map_app, in_app_iff. intros [Hin|Hin].
  - unfold Spec.records_of_entry in Hin.
    destruct (Spec.named (snd e)) as [[d nm]|]; [|contradiction].
    destruct Hin as [<-|[]]. exists (fst e). split; [reflexivity|now left].
  - destruct (IH Hin) as (h & -> & Hh). exists h. split; [reflexivity|now right].
Qed.

Lemma module_keys_NoDup (m : string) (mo : RawModule) :
  wf mo -> NoDup (map Derived.record_key (flat_map (Spec.records_of_entry m) mo)).
Proof.
  unfold wf. induction mo as [|e mo IH]; simpl; intros Hnd; [constructor|].
  inversion Hnd as [|? ? He Hmo]; subst.
  rewrite map_app. apply NoDup_app.
  - unfold Spec.records_of_entry.
    destruct (Spec.named (snd e)) as [[d nm]|]; simpl; repeat constructor. tauto.
  - now apply IH.
  - intros k Hk Hk'.
    unfold Spec.records_of_entry in Hk.
    destruct (Spec.named (snd e)) as [[d nm]|]; [|contradiction].
    destruct Hk as [<-|[]].
    apply module_keys_In in Hk'. destruct Hk' as (h & E & Hh).
    injection E as <-. contradiction.
Qed.

Lemma document_keys_NoDup (raw : RawCatalog) :
  Spec.wf_catalog raw ->
  NoDup (map Derived.record_key (Spec.normalize_document_order raw)).
Proof.
  unfold Spec.normalize_document_order, Spec.normalize_in, Spec.wf_catalog, wf.
  induction raw as [|[m mo] raw IH]; simpl; intros [Hnd Hmods]; [constructor|].
  inversion Hnd as [|? ? Hm Hraw]; subst.
  rewrite map_app. apply NoDup_app.
  - apply module_keys_NoDup. apply (Hmods m mo). now left.
  - apply IH. split; [assumption|]. intros m' mo' Hin. apply (Hmods m' mo'). now right.
  - intros k Hk Hk'.
    apply module_keys_In in Hk. destruct Hk as (h & -> & _).
    apply in_map_iff in Hk'. destruct Hk' as (x & Hx & Hin).
    apply in_flat_map in Hin. destruct Hin as ([m' mo'] & Hmo' & Hin). simpl in Hin.
    assert (Hk : In (Derived.record_key x)
                    (map Derived.record_key (flat_map (Spec.records_of_entry m') mo')))
      by now apply in_map.
    apply module_keys_In in Hk. destruct Hk as (h' & E & _).
    rewrite Hx in E. injection E as <- _.
    apply Hm. change m with (fst (m, mo')). now apply in_map.
Qed.

Lemma wf_catalog_app (a b : RawCatalog) :
  Spec.wf_catalog (a ++ b)%list -> Spec.wf_catalog a /\ Spec.wf_catalog b.
Proof.
  unfold Spec.wf_catalog, wf. rewrite map_app. intros [Hnd Hmods].
  split; (split; [|intros m mo Hin; apply (Hmods m mo), in_or_app; auto]).
  - eapply NoDup_app_remove_r; eassumption.
  - eapply NoDup_app_remove_l; eassumption.
Qed.

End NormalizationMore.

(** X8. Whatever the catalog, every normalized record has a non-empty name
    and carries a hash, a parameter list, a description and a module: no
    optional field of a record is left undefined by the normalizer. *)
Theorem parseNatives_fields_defined (raw : RawCatalog) :
  Forall (fun x => name x <> "" /\ hash x <> None /\ params x <> None /\
                   description x <> None /\ module x <> None)
         (parseNatives raw).
Proof.
  unfold parseNatives. apply fold_left_Forall; [|constructor].
  intros acc m Hacc. unfold parseNatives_module.
  destruct (JsObject.get raw m) as [mo|]; [|exact Hacc].
  apply fold_left_Forall; [|exact Hacc].
  clear. intros acc h Hacc. unfold parseNatives_entry.
  destruct (JsObject.get mo h) as [[d|]|]; try exact Hacc.
  destruct (def_name d) as [[|c r]|]; try exact Hacc.
  unfold push. apply Forall_app. split; [exact Hacc|].
  constructor; [|constructor]. simpl. repeat split; discriminate.
Qed.

(** X9. The normalized list holds the same records as a pass over the
    document in document order, each as often; only their order can differ. *)
Theorem parseNatives_same_records (raw : RawCatalog) :
  Spec.wf_catalog raw ->
  Permutation (parseNatives raw) (Spec.normalize_document_order raw).
Proof.
  intros Hwf. rewrite (parseNatives_enumeration raw Hwf). apply normalize_perm.
Qed.

Lemma parseNatives_same_records_witness :
  Spec.wf_catalog Sample.indexed_catalog /\
  Permutation (parseNatives Sample.indexed_catalog)
              (Spec.normalize_document_order Sample.indexed_catalog).
Proof.
  assert (Hwf : Spec.wf_catalog Sample.indexed_catalog) by solve_wf_catalog.
  split; [exact Hwf|]. exact (parseNatives_same_records _ Hwf).
Defined.

(** X10. No two normalized records share both module and hash: the pair
    identifies a record of the list. *)
Theorem parseNatives_keys_distinct (raw : RawCatalog) :
  Spec.wf_catalog raw ->
  NoDup (map Derived.record_key (parseNatives raw)).
Proof.
  intros Hwf.
  apply (Permutation_NoDup (l := map Derived.record_key (Spec.normalize_document_order raw))).
  - apply Permutation_map. symmetry.
    rewrite (parseNatives_enumeration raw Hwf). apply normalize_perm.
  - now apply document_keys_NoDup.
Qed.

Lemma parseNatives_keys_distinct_witness :
  Spec.wf_catalog Sample.mixed_catalog /\
  NoDup (map Derived.record_key (parseNatives Sample.mixed_catalog)).
Proof.
  assert (Hwf : Spec.wf_catalog Sample.mixed_catalog) by solve_wf_catalog.
  split; [exact Hwf|]. exact (parseNatives_keys_distinct _ Hwf).
Defined.

(** X11. When no module key is an array index, the records of a document
    made of two parts are the records of the first part followed by the
    records of the second. *)
Theorem parseNatives_app (a b : RawCatalog) :
  Spec.wf_catalog (a ++ b)%list ->
  Forall (fun mo => JsObject.is_index (fst mo) = false) (a ++ b)%list ->
  parseNatives (a ++ b)%list = (parseNatives a ++ parseNatives b)%list.
Proof.
  intros Hwf Hno.
  destruct (wf_catalog_app a b Hwf) as [Ha Hb].
  apply Forall_app in Hno as Hparts. destruct Hparts as [Hna Hnb].
  rewrite (parseNatives_enumeration _ Hwf), (parseNatives_enumeration _ Ha),
    (parseNatives_enumeration _ Hb).
  unfold Spec.normalize_enumeration_order, Spec.normalize_in.
  rewrite !enumerate_no_index by assumption.
  apply flat_map_app.
Qed.

Lemma parseNatives_app_witness :
  parseNatives (Sample.cfx_catalog ++ Sample.indexed_catalog)%list =
  (parseNatives Sample.cfx_catalog ++ parseNatives Sample.indexed_catalog)%list.
Proof.
  apply parseNatives_app.
  - solve_wf_catalog.
  - repeat constructor.
Defined.

(** ** Suggestions, further *)

Section SuggestionsMore.

Import Extension.

Lemma snippet_of_placeholders (funcName : string) (native_params : option (list FiveMNativeParam)) :
  Spec.placeholders (snippet_of funcName native_params) =
  map Spec.hint (match native_params with Some ps => ps | None => [] end).
Proof.
  unfold snippet_of. destruct native_params as [[|p ps]|]; try reflexivity.
  pose proof (snippet_loop (p :: ps) []) as Hloop.
  change ([] ++ p :: ps)%list with (p :: ps) in Hloop.
  change (List.length (@nil FiveMNativeParam)) with 0 in Hloop.
  rewrite Hloop.
  unfold appendText, new_SnippetString.
  rewrite !placeholders_app, placeholders_lines.
  change (Spec.placeholders [SnippetValue (funcName ++ "(")]) with (@nil string).
  change (Spec.placeholders [Text (nl ++ ")")]) with (@nil string).
  change (Spec.placeholders [Text ";"]) with (@nil string).
  now rewrite !app_nil_r.
Qed.

Lemma append_not_empty (a b : string) (c : ascii) : a ++ String c b <> "".
Proof. destruct a; discriminate. Qed.

Lemma join_not_empty (sep x : string) (l : list string) : x <> "" -> join sep (x :: l) <> "".
Proof.
  intros Hx. destruct l as [|y l]; simpl; [exact Hx|].
  destruct x; [congruence|discriminate].
Qed.

End SuggestionsMore.

(** X12. Every entry with a usable name has its suggestion: the label is the
    display name of the entry's name, the detail is the module key and the
    entry key around [ - Hash: ], and the placeholders are the hints of the
    entry's parameters, in order.  There are as many suggestions as entries
    with a usable name. *)
Theorem suggestions_of_named_entries (raw : RawCatalog) :
  Spec.wf_catalog raw ->
  List.length (Extension.provideCompletionItems (parseNatives raw)) = Spec.named_count raw /\
  (forall m mo h d nm,
      In (m, mo) raw -> In (h, Some d) mo -> def_name d = Some nm -> nm <> "" ->
      exists item,
        In item (Extension.provideCompletionItems (parseNatives raw)) /\
        label item = Extension.toPascalCase nm /\
        detail item = m ++ " - Hash: " ++ h /\
        option_map Spec.placeholders (insertText item) =
          Some (map Spec.hint (match def_params d with Some ps => ps | None => [] end))).
Proof.
  intros Hwf. pose proof (parseNatives_enumeration raw Hwf) as E.
  split.
  - unfold Extension.provideCompletionItems. rewrite length_map, E.
    apply normalize_length.
  - intros m mo h d nm Hmo He Hn Hne.
    exists (Extension.completionItem (Spec.record_of m h d nm)).
    split; [|split; [reflexivity|split; [reflexivity|]]].
    + unfold Extension.provideCompletionItems. apply in_map.
      rewrite E. apply In_normalize. exists m, mo, h, d, nm. now repeat split.
    + simpl. f_equal.
      exact (snippet_of_placeholders _
               (Some (match def_params d with Some ps => ps | None => [] end))).
Qed.

Lemma suggestions_of_named_entries_witness :
  Spec.wf_catalog Sample.mixed_catalog /\
  List.length (Extension.provideCompletionItems (parseNatives Sample.mixed_catalog)) = 2.
Proof.
  assert (Hwf : Spec.wf_catalog Sample.mixed_catalog) by solve_wf_catalog.
  split; [exact Hwf|].
  exact (proj1 (suggestions_of_named_entries Sample.mixed_catalog Hwf)).
Defined.

(** X13. The parameter text of the documentation is empty exactly when the
    record has no parameters, be the field absent or the empty sequence. *)
Theorem paramList_empty (native : FiveMNative) :
  Extension.paramList (params native) = "" <-> Spec.parameters native = [].
Proof.
  unfold Extension.paramList, Spec.parameters.
  destruct (params native) as [[|p ps]|]; simpl; try tauto.
  split; [|discriminate]. intros E. exfalso. revert E.
  change (join ", " ((Extension.mapType (p_type p) ++ " " ++ p_name p) ::
                     map (fun q => Extension.mapType (p_type q) ++ " " ++ p_name q) ps) <> "").
  apply join_not_empty, append_not_empty.
Qed.

(** ** The catalog load, further *)

Section ActivateMore.

Lemma activate_table (rt : Runtime) (extensionPath : string) :
  Host.run (Extension.activate rt extensionPath) =
  (Returned tt,
   if existsSync rt (Spec.nativesFile rt extensionPath) then
     match readFileSync rt (Spec.nativesFile rt extensionPath) with
     | Returned rawData =>
         match JSON_parse rt rawData with
         | Returned parsed => Spec.registrations (parseNatives parsed)
         | Thrown _ =>
             showErrorMessage "Failed to parse natives.json" :: Spec.registrations []
         end
     | Thrown _ => showErrorMessage "Failed to parse natives.json" :: Spec.registrations []
     end
   else showWarningMessage "natives.json not found in the data folder." ::
        Spec.registrations []).
Proof.
  unfold Spec.nativesFile, Host.run, Extension.activate,
    Host.bind, Host.try_catch, Host.lift, Host.call, Host.ret.
  destruct (existsSync rt _); [|reflexivity].
  destruct (readFileSync rt _) as [rawData|e]; [|reflexivity].
  destruct (JSON_parse rt rawData); reflexivity.
Qed.

End ActivateMore.

(** X14. Whatever the installation, [activate] ends with the same six host
    calls (two providers, two commands, the subscription, the activation
    message) for the list of natives it loaded.  Before them it shows at most
    one message, the warning or the error, and whenever it shows one the list
    is empty: a list with natives in it is always loaded silently. *)
Theorem activate_messages (rt : Runtime) (extensionPath : string) :
  exists messages natives,
    Host.run (Extension.activate rt extensionPath) =
      (Returned tt, (messages ++ Spec.registrations natives)%list) /\
    (messages = [] \/
     natives = [] /\
     (messages = [showWarningMessage "natives.json not found in the data folder."] \/
      messages = [showErrorMessage "Failed to parse natives.json"])).
Proof.
  rewrite activate_table.
  destruct (existsSync rt _).
  - destruct (readFileSync rt _) as [rawData|e].
    + destruct (JSON_parse rt rawData) as [parsed|e].
      * exists [], (parseNatives parsed). split; [reflexivity|now left].
      * exists [showErrorMessage "Failed to parse natives.json"], [].
        split; [reflexivity|right; split; [reflexivity|now right]].
    + exists [showErrorMessage "Failed to parse natives.json"], [].
      split; [reflexivity|right; split; [reflexivity|now right]].
  - exists [showWarningMessage "natives.json not found in the data folder."], [].
    split; [reflexivity|right; split; [reflexivity|now left]].
Qed.

(** X15. When the catalog file is there, is read and parses, [activate] shows
    no warning and no error, and the completion provider it registers serves
    one suggestion for each entry of the document that has a usable name. *)
Theorem activate_serves_catalog (rt : Runtime) (extensionPath rawData : string)
    (parsed : RawCatalog) :
  existsSync rt (Spec.nativesFile rt extensionPath) = true ->
  readFileSync rt (Spec.nativesFile rt extensionPath) = Returned rawData ->
  JSON_parse rt rawData = Returned parsed ->
  Spec.wf_catalog parsed ->
  exists natives,
    Host.run (Extension.activate rt extensionPath) = (Returned tt, Spec.registrations natives) /\
    List.length (Extension.provideCompletionItems natives) = Spec.named_count parsed.
Proof.
  intros Hexists Hread Hparse Hwf.
  exists (parseNatives parsed). split.
  - now rewrite activate_table, Hexists, Hread, Hparse.
  - unfold Extension.provideCompletionItems.
    rewrite length_map, (parseNatives_enumeration parsed Hwf).
    apply normalize_length.
Qed.

Lemma activate_serves_catalog_witness :
  exists natives,
    Host.run (Extension.activate Sample2.loaded_runtime "/ext") =
      (Returned tt, Spec.registrations natives) /\
    List.length (Extension.provideCompletionItems natives) =
      Spec.named_count Sample.cfx_catalog.
Proof.
  apply (activate_serves_catalog Sample2.loaded_runtime "/ext" "{...}" Sample.cfx_catalog);
    try reflexivity.
  solve_wf_catalog.
Defined.

(** X16. A catalog file that exists and cannot be read is reported with the
    message of a parse failure, and the extension goes on with no natives:
    the provider registered serves no suggestion. *)
Theorem activate_read_failure (rt : Runtime) (extensionPath e : string) :
  existsSync rt (Spec.nativesFile rt extensionPath) = true ->
  readFileSync rt (Spec.nativesFile rt extensionPath) = Thrown e ->
  Host.run (Extension.activate rt extensionPath) =
    (Returned tt,
     showErrorMessage "Failed to parse natives.json" :: Spec.registrations []) /\
  Extension.provideCompletionItems [] = [].
Proof.
  intros Hexists Hread. split; [|reflexivity].
  now rewrite activate_table, Hexists, Hread.
Qed.

Lemma activate_read_failure_witness :
  Host.run (Extension.activate Sample2.unreadable_runtime "/ext") =
    (Returned tt,
     showErrorMessage "Failed to parse natives.json" :: Spec.registrations []) /\
  Extension.provideCompletionItems [] = [].
Proof.
  apply (activate_read_failure Sample2.unreadable_runtime "/ext" "EACCES: permission denied");
    reflexivity.
Defined.

(** ** The other revision, further *)

Section RevisionMore.

Import Revision.

Lemma revision_activate_table (rt : Runtime) (extensionPath : string) :
  Host.run (Revision.activate rt extensionPath) =
  if existsSync rt (Spec.nativesFile rt extensionPath) then
    match readFileSync rt (Spec.nativesFile rt extensionPath) with
    | Returned rawData =>
        match JSON_parse rt rawData with
        | Returned parsed =>
            (Returned tt, Derived.revision_registrations (parseNatives parsed))
        | Thrown e => (Thrown e, [])
        end
    | Thrown e => (Thrown e, [])
    end
  else (Returned tt,
        showWarningMessage Derived.revision_warning :: Derived.revision_registrations []).
Proof.
  unfold Spec.nativesFile, Host.run, Revision.activate,
    Host.bind, Host.lift, Host.call, Host.ret.
  destruct (existsSync rt _); [|reflexivity].
  destruct (readFileSync rt _) as [rawData|e]; [|reflexivity].
  destruct (JSON_parse rt rawData); reflexivity.
Qed.

Lemma findByName_In (natives : list FiveMNative) (word : string) (x : FiveMNative) :
  findByName natives word = Some x -> In x natives /\ Spec.matches word x.
Proof.
  unfold findByName, Spec.matches. intros E.
  apply find_some in E. destruct E as [Hin Heq].
  split; [exact Hin|]. now apply String.eqb_eq.
Qed.

Lemma findByName_found (natives : list FiveMNative) (word : string) (y : FiveMNative) :
  In y natives -> Spec.matches word y ->
  exists x, findByName natives word = Some x.
Proof.
  unfold findByName, Spec.matches. intros Hin Hy.
  destruct (find _ natives) as [x|] eqn:E; [now exists x|].
  apply (find_none _ _ E) in Hin. rewrite Hy, String.eqb_refl in Hin. discriminate.
Qed.

End RevisionMore.

(** X17. The other revision's [activate] has no guard around the load.  A
    missing file gives its warning and the registrations with no natives; a
    file that cannot be read or parsed makes [activate] throw that very
    exception before anything is shown or registered; a file that loads gives
    the registrations, both providers holding the same normalized list. *)
Theorem revision_activate_outcomes :
  (forall rt extensionPath,
      existsSync rt (Spec.nativesFile rt extensionPath) = false ->
      Host.run (Revision.activate rt extensionPath) =
      (Returned tt,
       showWarningMessage Derived.revision_warning :: Derived.revision_registrations [])) /\
  (forall rt extensionPath e,
      existsSync rt (Spec.nativesFile rt extensionPath) = true ->
      readFileSync rt (Spec.nativesFile rt extensionPath) = Thrown e ->
      Host.run (Revision.activate rt extensionPath) = (Thrown e, [])) /\
  (forall rt extensionPath rawData e,
      existsSync rt (Spec.nativesFile rt extensionPath) = true ->
      readFileSync rt (Spec.nativesFile rt extensionPath) = Returned rawData ->
      JSON_parse rt rawData = Thrown e ->
      Host.run (Revision.activate rt extensionPath) = (Thrown e, [])) /\
  (forall rt extensionPath rawData parsed,
      existsSync rt (Spec.nativesFile rt extensionPath) = true ->
      readFileSync rt (Spec.nativesFile rt extensionPath) = Returned rawData ->
      JSON_parse rt rawData = Returned parsed ->
      Host.run (Revision.activate rt extensionPath) =
      (Returned tt, Derived.revision_registrations (parseNatives parsed))).
Proof.
  repeat match goal with |- _ /\ _ => split end; intros; rewrite revision_activate_table.
  - now rewrite H.
  - now rewrite H, H0.
  - now rewrite H, H0, H1.
  - now rewrite H, H0, H1.
Qed.

Lemma revision_activate_outcomes_witness :
  Host.run (Revision.activate Sample.garbled_runtime "/ext") =
    (Thrown "SyntaxError: Unexpected end of JSON input", []) /\
  Host.run (Revision.activate Sample2.loaded_runtime "/ext") =
    (Returned tt, Derived.revision_registrations (parseNatives Sample.cfx_catalog)).
Proof.
  split.
  - apply (proj1 (proj2 (proj2 revision_activate_outcomes)) Sample.garbled_runtime "/ext" "{");
      reflexivity.
  - apply (proj2 (proj2 (proj2 revision_activate_outcomes)) Sample2.loaded_runtime "/ext" "{...}");
      reflexivity.
Defined.

(** X18. In the other revision a suggestion is labelled with the name as it
    is; it has no insert template at all when the record has no parameters,
    and otherwise the template is the name and an opening parenthesis, one
    placeholder per parameter holding the bare parameter name, a comma and a
    blank between them on one line, and the closing parenthesis. *)
Theorem revision_insertText (native : FiveMNative) :
  label (Revision.completionItem native) = name native /\
  (Spec.parameters native = [] -> insertText (Revision.completionItem native) = None) /\
  (Spec.parameters native <> [] ->
     insertText (Revision.completionItem native) =
       Some (SnippetValue (name native ++ "(") ::
             Derived.placeholder_row (Spec.parameters native) ++ [Text ")"])%list /\
     option_map Spec.placeholders (insertText (Revision.completionItem native)) =
       Some (map p_name (Spec.parameters native))).
Proof.
  split; [reflexivity|].
  unfold Revision.completionItem, Spec.parameters. simpl.
  destruct (params native) as [[|p ps]|]; split; try congruence; try reflexivity.
  intros _.
  pose proof (revision_snippet_loop (p :: ps) []) as Hloop.
  change ([] ++ p :: ps)%list with (p :: ps) in Hloop.
  change (List.length (@nil FiveMNativeParam)) with 0 in Hloop.
  rewrite Hloop. unfold appendText, new_SnippetString.
  split; [now rewrite <- app_assoc|].
  unfold option_map. f_equal. rewrite !placeholders_app, placeholders_row.
  change (Spec.placeholders [SnippetValue (name native ++ "(")]) with (@nil string).
  change (Spec.placeholders [Text ")"]) with (@nil string).
  now rewrite app_nil_r.
Qed.

(** X19. The two revisions give the same return-type text for every results
    value but two, on which they are the other way round: the empty string
    (the default [void] in [src/extension.ts], kept as it is in the other
    revision) and the empty sequence (joined to the empty text in
    [src/extension.ts], the default [void] in the other revision). *)
Theorem returns_text_revisions :
  (forall r, r <> Some (ResultsString "") -> r <> Some (ResultsArray []) ->
     Extension.returns_text r = Revision.returns_text r) /\
  Extension.returns_text (Some (ResultsString "")) = "void" /\
  Revision.returns_text (Some (ResultsString "")) = "" /\
  Extension.returns_text (Some (ResultsArray [])) = "" /\
  Revision.returns_text (Some (ResultsArray [])) = "void".
Proof.
  repeat match goal with |- _ /\ _ => split end; try reflexivity.
  intros [[[|c s]|[|x l]]|] H1 H2; try reflexivity; congruence.
Qed.

(** X20. The definition provider opens a page exactly when the word under the
    cursor equals, up to case, the name of some record, and then one page
    only, that of a matching record; with no word under the cursor or no
    matching record it calls nothing.  The calls made before are kept. *)
Theorem provideDefinition_pages (natives : list FiveMNative)
    (wordAtPosition : option string) (log : list Host.Call) :
  exists opened,
    snd (Revision.provideDefinition natives wordAtPosition log) = (log ++ opened)%list /\
    ((opened = [] /\
      forall word, wordAtPosition = Some word ->
                   Forall (fun n => ~ Spec.matches word n) natives) \/
     (exists word x,
         wordAtPosition = Some word /\ In x natives /\ Spec.matches word x /\
         opened = [openExternal (Revision.docUrl x)])).
Proof.
  unfold Revision.provideDefinition.
  destruct wordAtPosition as [word|].
  - pose proof (findByName_spec natives word) as Hspec.
    destruct (Revision.findByName natives word) as [x|] eqn:E.
    + exists [openExternal (Revision.docUrl x)]. split; [reflexivity|].
      right. exists word, x. apply findByName_In in E. tauto.
    + exists []. split; [simpl; now rewrite app_nil_r|].
      left. split; [reflexivity|]. intros w Hw. injection Hw as <-. exact Hspec.
  - exists []. split; [simpl; now rewrite app_nil_r|].
    left. split; [reflexivity|]. discriminate.
Qed.

(** X21. Looking up a word that equals, up to case, the name of an entry of
    the document always succeeds on the normalized list: the provider opens
    the page of an entry whose name equals the word up to case, at the
    address made of that entry's key without its first two characters. *)
Theorem lookup_of_named_entry (raw : RawCatalog) (m : string) (mo : RawModule)
    (h : string) (d : NativeDef) (nm word : string) :
  Spec.wf_catalog raw ->
  In (m, mo) raw -> In (h, Some d) mo -> def_name d = Some nm -> nm <> "" ->
  toLowerCase nm = toLowerCase word ->
  exists m' mo' h' d' nm',
    In (m', mo') raw /\ In (h', Some d') mo' /\ def_name d' = Some nm' /\
    toLowerCase nm' = toLowerCase word /\
    Revision.findByName (parseNatives raw) word = Some (Spec.record_of m' h' d' nm') /\
    Host.run (Revision.provideDefinition (parseNatives raw) (Some word)) =
      (Returned None, [openExternal (Spec.docs_prefix ++ slice 2 h')]).
Proof.
  intros Hwf Hmo He Hn Hne Hfold.
  pose proof (parseNatives_enumeration raw Hwf) as E.
  assert (Hin : In (Spec.record_of m h d nm) (parseNatives raw)).
  { rewrite E. apply In_normalize. exists m, mo, h, d, nm. now repeat split. }
  destruct (findByName_found (parseNatives raw) word _ Hin Hfold) as [x Hx].
  destruct (findByName_In _ _ _ Hx) as [Hxin Hxm].
  rewrite E in Hxin. apply In_normalize in Hxin.
  destruct Hxin as (m' & mo' & h' & d' & nm' & Hmo' & He' & Hn' & Hne' & ->).
  exists m', mo', h', d', nm'. repeat split; try assumption.
  unfold Host.run, Revision.provideDefinition. rewrite Hx.
  unfold Host.bind, Host.call, Host.ret, Revision.docUrl.
  cbn [hash Spec.record_of option_map]. rewrite or_string_default. reflexivity.
Qed.

Lemma lookup_of_named_entry_witness :
  exists m' mo' h' d' nm',
    In (m', mo') Sample.foo_catalog /\ In (h', Some d') mo' /\ def_name d' = Some nm' /\
    toLowerCase nm' = toLowerCase "foo" /\
    Revision.findByName (parseNatives Sample.foo_catalog) "foo" =
      Some (Spec.record_of m' h' d' nm') /\
    Host.run (Revision.provideDefinition (parseNatives Sample.foo_catalog) (Some "foo")) =
      (Returned None, [openExternal (Spec.docs_prefix ++ slice 2 h')]).
Proof.
  apply (lookup_of_named_entry Sample.foo_catalog "BETA"
           [("0x02", Some (mkDef (Some "FOO") None None None))]
           "0x02" (mkDef (Some "FOO") None None None) "FOO" "foo").
  - solve_wf_catalog.
  - simpl. tauto.
  - simpl. tauto.
  - reflexivity.
  - discriminate.
  - reflexivity.
Defined.

(** ** The refresh script *)

Section ScriptFacts.

Context {Data : Type}.
Implicit Types (rt : FetchScript.Runtime Data) (dirname : string).

(** The run of the script, step by step. *)
Lemma script_table rt dirname :
  FetchScript.run (FetchScript.main rt dirname) =
  (Returned tt,
   (Derived.script_prologue ++ fst (Derived.script_body rt dirname) ++
    match snd (Derived.script_body rt dirname) with
    | Some err => Derived.script_failure err
    | None => []
    end)%list).
Proof.
  unfold FetchScript.run, FetchScript.main, FetchScript.fetchNatives, Derived.script_body,
    Derived.script_write, Derived.script_mkdir,
    FetchScript.bind, FetchScript.try_catch, FetchScript.lift, FetchScript.call,
    FetchScript.effect, FetchScript.throw, FetchScript.ret.
  destruct (FetchScript.import_node_fetch rt) as [[]|e]; [|reflexivity].
  destruct (FetchScript.fetch rt FetchScript.NATIVES_URL) as [response|e]; [|reflexivity].
  destruct (FetchScript.ok response); [|reflexivity].
  destruct (FetchScript.json response) as [data|e]; [|reflexivity].
  destruct (FetchScript.existsSync rt _).
  - destruct (FetchScript.writeFileSync rt _ _) as [[]|e]; reflexivity.
  - destruct (FetchScript.mkdirSync rt _) as [[]|e]; [|reflexivity].
    destruct (FetchScript.writeFileSync rt _ _) as [[]|e]; reflexivity.
Qed.

Lemma script_body_ok rt dirname :
  snd (Derived.script_body rt dirname) = None <-> Derived.refresh_ok rt dirname = true.
Proof.
  unfold Derived.script_body, Derived.refresh_ok, Derived.script_write, Derived.returned.
  destruct (FetchScript.import_node_fetch rt) as [[]|e]; [|simpl; split; discriminate].
  destruct (FetchScript.fetch rt FetchScript.NATIVES_URL) as [response|e];
    [|simpl; split; discriminate].
  destruct (FetchScript.ok response); [|simpl; split; discriminate].
  destruct (FetchScript.json response) as [data|e]; [|simpl; split; discriminate].
  destruct (FetchScript.existsSync rt _); simpl.
  - destruct (FetchScript.writeFileSync rt _ _) as [[]|e]; simpl; split;
      (reflexivity || discriminate).
  - destruct (FetchScript.mkdirSync rt _) as [[]|e]; simpl; [|split; discriminate].
    destruct (FetchScript.writeFileSync rt _ _) as [[]|e]; simpl; split;
      (reflexivity || discriminate).
Qed.

(** Before the failure report, if any, the script neither exits nor reports an error. *)
Lemma script_body_quiet rt dirname :
  Forall (fun c => Derived.is_exit c = false /\
                   forall label err, c <> FetchScript.console_error label err)
         (Derived.script_prologue ++ fst (Derived.script_body rt dirname))%list.
Proof.
  unfold Derived.script_body, Derived.script_write, Derived.script_mkdir,
    Derived.script_prologue, Derived.script_request.
  destruct (FetchScript.import_node_fetch rt) as [[]|e];
    [|simpl; repeat constructor; discriminate].
  destruct (FetchScript.fetch rt FetchScript.NATIVES_URL) as [response|e];
    [|simpl; repeat constructor; discriminate].
  destruct (FetchScript.ok response); [|simpl; repeat constructor; discriminate].
  destruct (FetchScript.json response) as [data|e];
    [|simpl; repeat constructor; discriminate].
  destruct (FetchScript.existsSync rt _).
  - destruct (FetchScript.writeFileSync rt _ _) as [[]|e];
      simpl; repeat constructor; discriminate.
  - destruct (FetchScript.mkdirSync rt _) as [[]|e];
      [|simpl; repeat constructor; discriminate].
    destruct (FetchScript.writeFileSync rt _ _) as [[]|e];
      simpl; repeat constructor; discriminate.
Qed.

End ScriptFacts.

Section ScriptOutcome.

Context {Data : Type}.
Implicit Types (rt : FetchScript.Runtime Data) (dirname : string).

Lemma script_body_saved rt dirname :
  snd (Derived.script_body rt dirname) = None ->
  exists before,
    fst (Derived.script_body rt dirname) =
    (before ++ [FetchScript.console_log
                  ("Natives saved to " ++ FetchScript.OUTPUT_FILE rt dirname)])%list.
Proof.
  unfold Derived.script_body, Derived.script_write.
  destruct (FetchScript.import_node_fetch rt) as [[]|e]; [|discriminate].
  destruct (FetchScript.fetch rt FetchScript.NATIVES_URL) as [response|e]; [|discriminate].
  destruct (FetchScript.ok response); [|discriminate].
  destruct (FetchScript.json response) as [data|e]; [|discriminate].
  destruct (FetchScript.existsSync rt _).
  - destruct (FetchScript.writeFileSync rt _ _) as [[]|e]; [|discriminate].
    intros _. simpl.
    exists (Derived.script_request ++
            [FetchScript.writeFileSync_utf8 (FetchScript.OUTPUT_FILE rt dirname)
               (FetchScript.JSON_stringify rt data)])%list.
    reflexivity.
  - destruct (FetchScript.mkdirSync rt _) as [[]|e]; [|discriminate].
    destruct (FetchScript.writeFileSync rt _ _) as [[]|e]; [|discriminate].
    intros _. simpl.
    exists (Derived.script_request ++ Derived.script_mkdir rt dirname ++
            [FetchScript.writeFileSync_utf8 (FetchScript.OUTPUT_FILE rt dirname)
               (FetchScript.JSON_stringify rt data)])%list.
    reflexivity.
Qed.

End ScriptOutcome.

(** X22. The refresh script never ends in an uncaught exception.  When every
    step returns, it neither reports an error nor exits, and its last line
    says where the natives were saved.  When a step fails, the run ends with
    the error reported by [fetchNatives], reported again by its caller, and
    the exit with status 1; nothing before that reports an error or exits. *)
Theorem script_exit_status {Data : Type} (rt : FetchScript.Runtime Data) (dirname : string) :
  fst (FetchScript.run (FetchScript.main rt dirname)) = Returned tt /\
  (Derived.refresh_ok rt dirname = true ->
     exists before,
       snd (FetchScript.run (FetchScript.main rt dirname)) =
       (before ++ [FetchScript.console_log
                     ("Natives saved to " ++ FetchScript.OUTPUT_FILE rt dirname)])%list /\
       Forall (fun c => Derived.is_exit c = false /\
                        forall label err, c <> FetchScript.console_error label err)
              (snd (FetchScript.run (FetchScript.main rt dirname)))) /\
  (Derived.refresh_ok rt dirname = false ->
     exists before err,
       snd (FetchScript.run (FetchScript.main rt dirname)) =
       (before ++ Derived.script_failure err)%list /\
       Forall (fun c => Derived.is_exit c = false /\
                        forall label err', c <> FetchScript.console_error label err')
              before).
Proof.
  rewrite script_table. cbn [fst snd].
  pose proof (script_body_quiet rt dirname) as Hquiet.
  pose proof (script_body_ok rt dirname) as Hok.
  split; [reflexivity|split].
  - intros Hrun. apply Hok in Hrun.
    destruct (script_body_saved rt dirname Hrun) as [before Hbefore].
    rewrite Hrun, app_nil_r. split with (Derived.script_prologue ++ before)%list.
    split; [now rewrite Hbefore, app_assoc|exact Hquiet].
  - intros Hrun.
    destruct (snd (Derived.script_body rt dirname)) as [err|].
    + exists (Derived.script_prologue ++ fst (Derived.script_body rt dirname))%list, err.
      split; [now rewrite app_assoc|exact Hquiet].
    + rewrite (proj1 Hok eq_refl) in Hrun. discriminate.
Qed.

Lemma script_exit_status_witness :
  exists before err,
    snd (FetchScript.run (FetchScript.main Sample2.not_found_script "/repo/scripts")) =
    (before ++ Derived.script_failure err)%list /\
    Forall (fun c => Derived.is_exit c = false /\
                     forall label err', c <> FetchScript.console_error label err')
           before.
Proof.
  apply (proj2 (proj2 (script_exit_status Sample2.not_found_script "/repo/scripts"))).
  reflexivity.
Defined.

Ltac script_cases rt :=
  destruct (FetchScript.import_node_fetch rt) as [[]|?];
  [destruct (FetchScript.fetch rt FetchScript.NATIVES_URL) as [?response|?];
   [destruct (FetchScript.ok response) eqn:?Hok;
    [destruct (FetchScript.json response) as [?data|?] eqn:?Hjson;
     [destruct (FetchScript.existsSync rt _) eqn:?Hexists;
      [destruct (FetchScript.writeFileSync rt _ _) as [[]|?]
      |destruct (FetchScript.mkdirSync rt _) as [[]|?] eqn:?Hmkdir;
       [destruct (FetchScript.writeFileSync rt _ _) as [[]|?]|]]
     |]
    |]
   |]
  |].

(** X23. The script writes the file at most once, and only the output file,
    and only after the import returned, the request was answered with a
    success status, the body parsed and the output directory was there or was
    created; what it writes is the parsed body as [JSON.stringify] renders it. *)
Theorem script_write_guarded {Data : Type} (rt : FetchScript.Runtime Data) (dirname : string) :
  List.length (filter Derived.is_write (snd (FetchScript.run (FetchScript.main rt dirname)))) <= 1 /\
  (forall file content,
      In (FetchScript.writeFileSync_utf8 file content)
         (snd (FetchScript.run (FetchScript.main rt dirname))) ->
      file = FetchScript.OUTPUT_FILE rt dirname /\
      exists response data,
        FetchScript.import_node_fetch rt = Returned tt /\
        FetchScript.fetch rt FetchScript.NATIVES_URL = Returned response /\
        FetchScript.ok response = true /\
        FetchScript.json response = Returned data /\
        content = FetchScript.JSON_stringify rt data /\
        (FetchScript.existsSync rt (FetchScript.outputDir rt dirname) = true \/
         FetchScript.mkdirSync rt (FetchScript.outputDir rt dirname) = Returned tt)).
Proof.
  rewrite script_table. cbn [snd].
  unfold Derived.script_body, Derived.script_write, Derived.script_mkdir,
    Derived.script_prologue, Derived.script_request, Derived.script_failure.
  script_cases rt; simpl; (split; [lia|]); intros file content Hin;
    repeat (destruct Hin as [Hin|Hin]; [try discriminate Hin|]); try contradiction;
    injection Hin as <- <-; (split; [reflexivity|]);
    eexists; eexists; repeat split; try eassumption; try reflexivity; auto.
Qed.

(** X24. The script creates the output directory exactly when it is missing
    at the moment the body has been received and parsed: never when the
    directory exists, and never after a failed import, request or parse. *)
Theorem script_mkdir_when_missing {Data : Type} (rt : FetchScript.Runtime Data)
    (dirname dir : string) :
  In (FetchScript.mkdirSync_recursive dir)
     (snd (FetchScript.run (FetchScript.main rt dirname))) <->
  dir = FetchScript.outputDir rt dirname /\
  FetchScript.existsSync rt (FetchScript.outputDir rt dirname) = false /\
  exists response data,
    FetchScript.import_node_fetch rt = Returned tt /\
    FetchScript.fetch rt FetchScript.NATIVES_URL = Returned response /\
    FetchScript.ok response = true /\
    FetchScript.json response = Returned data.
Proof.
  rewrite script_table. cbn [snd].
  unfold Derived.script_body, Derived.script_write, Derived.script_mkdir,
    Derived.script_prologue, Derived.script_request, Derived.script_failure.
  script_cases rt; simpl; split.
  all: try (intros Hin;
            repeat (destruct Hin as [Hin|Hin];
                    [first [discriminate Hin
                           |injection Hin as <-; split; [reflexivity|]; split; [reflexivity|];
                            eexists; eexists; repeat split; try eassumption; reflexivity]|]);
            contradiction).
  all: intros (-> & Hmissing & response' & data' & Himport & Hfetch & Hok' & Hjson');
    try discriminate Himport; try discriminate Hfetch;
    try (injection Hfetch as <-); try congruence.
  all: repeat (first [left; reflexivity|right]).
Qed.

(** X25. A response without a success status ends the run at once: the body
    is not read, nothing is created or written, and the error reported twice
    before the exit with status 1 names the status of the response. *)
Theorem script_bad_status {Data : Type} (rt : FetchScript.Runtime Data) (dirname : string)
    (response : FetchScript.Response Data) :
  FetchScript.import_node_fetch rt = Returned tt ->
  FetchScript.fetch rt FetchScript.NATIVES_URL = Returned response ->
  FetchScript.ok response = false ->
  FetchScript.run (FetchScript.main rt dirname) =
  (Returned tt,
   (Derived.script_prologue ++ Derived.script_request ++
    Derived.script_failure
      ("Failed to fetch. Status: " ++ FetchScript.decimal (FetchScript.status response)))%list).
Proof.
  intros Himport Hfetch Hok. rewrite script_table.
  unfold Derived.script_body. now rewrite Himport, Hfetch, Hok.
Qed.

Lemma script_bad_status_witness :
  FetchScript.run (FetchScript.main Sample2.not_found_script "/repo/scripts") =
  (Returned tt,
   (Derived.script_prologue ++ Derived.script_request ++
    Derived.script_failure "Failed to fetch. Status: 404")%list).
Proof.
  apply (script_bad_status Sample2.not_found_script "/repo/scripts"
           (FetchScript.mkResponse string false 404 (Returned "Not Found")));
    reflexivity.
Defined.
